(** * Strava-Challenge: token cache, route handlers, polyline decoding
      and SVG projection

    A shallow embedding of the logic of the repository:

    - [TokenBroker.getAccessToken]   (src/app/api/strava/route/route.ts,
      the cached variant of [getAccessToken]),
    - [RouteHandler.GET] and [ActivitiesHandler.GET] (the two variants of
      the handler of route.ts),
    - [Polyline.decodePolyline]      (the challenge client, [decodePolyline]),
    - [Projection.buildSvgPath]      (the challenge client, [buildSvgPath]),
    - [Pace.parsePaceToSeconds] and [Pace.formatHMS] (the challenge client).

    The token code is stateful and throws: it is written in a small
    state-and-exception monad over the module-level cache slot and a log of
    the network requests performed.  The decoder is integer bit twiddling on
    32-bit values followed by one binary64 division per coordinate; both are
    modelled as such.  The projection is arithmetic on JS numbers: it is
    modelled on the kernel's binary64 floats, operation by operation. *)

From Stdlib Require Import ZArith List String Ascii Bool Lia.
From Stdlib Require Import DecimalString.
From Stdlib Require Import QArith Qminmax Qround Qabs Lqa.
From Stdlib Require Import PrimFloat FloatClass SpecFloat FloatOps FloatAxioms.
From Stdlib Require Uint63.
From Equations Require Import Equations.
Import ListNotations.

Set Warnings "-inexact-float".

(* ===================================================================== *)
(** * TokenBroker: [getAccessToken] *)
(* ===================================================================== *)

Module TokenBroker.

Local Open Scope string_scope.
Local Open Scope Z_scope.

(** ** Data *)

(** [process.env]: each variable is a string or [undefined]. *)
Record Env := {
  STRAVA_ACCESS_TOKEN : option string;
  STRAVA_CLIENT_ID : option string;
  STRAVA_CLIENT_SECRET : option string;
  STRAVA_REFRESH_TOKEN : option string
}.

(** JS truthiness of a [string | undefined]: [undefined] and the empty
    string are falsy. *)
Definition truthy (v : option string) : bool :=
  match v with
  | Some s => negb (s =? "")%string
  | None => false
  end.

(** The string behind a variable that was found truthy. *)
Definition str (v : option string) : string :=
  match v with Some s => s | None => "" end.

(** [{ token: string; expiresAt: number }]; [expiresAt] is an absolute
    epoch second. *)
Record CachedToken := { token : string; expiresAt : Z }.

(** The body of the token endpoint's answer,
    [{ access_token: string; expires_at: number }]. *)
Record TokenData := { access_token : string; expires_at : Z }.

(** What [fetch] is called with. *)
Record Request := {
  url : string;
  method : string;
  contentType : string;
  body : list (string * string)
}.

(** What the awaited [fetch] resolves to: a status, the raw text of the
    body, and the body parsed as JSON when it parses. *)
Record Response := {
  status : Z;
  text : string;
  json : option TokenData
}.

(** [res.ok]: the status is in the range 200-299. *)
Definition ok (res : Response) : bool :=
  (200 <=? status res) && (status res <=? 299).

(** The upstream, as seen from one call: a request is answered or the
    [fetch] promise rejects. *)
Inductive FetchOutcome :=
| Responded (res : Response)
| Rejected.

(** What can be thrown. *)
Inductive JsError :=
| Error (message : string)
| FetchFailed
| JsonSyntaxError.

(** ** The state-and-exception monad *)

(** Process-wide state: the module-level [cachedAccessToken] slot, and the
    requests sent so far (most recent last). *)
Record World := {
  cachedAccessToken : option CachedToken;
  requests : list Request
}.

Inductive Completion (A : Type) :=
| Return (a : A)
| Throw (e : JsError).
Arguments Return {A} a.
Arguments Throw {A} e.

Definition Async (A : Type) : Type := World -> Completion A * World.

Definition ret {A} (a : A) : Async A := fun w => (Return a, w).

Definition throw {A} (e : JsError) : Async A := fun w => (Throw e, w).

Definition bind {A B} (m : Async A) (k : A -> Async B) : Async B :=
  fun w =>
    match m w with
    | (Return a, w') => k a w'
    | (Throw e, w') => (Throw e, w')
    end.

Notation "x <- m ;; k" := (bind m (fun x => k))
  (at level 61, m at next level, right associativity).
Notation "m ;;; k" := (bind m (fun _ => k))
  (at level 61, right associativity).

Definition readCache : Async (option CachedToken) :=
  fun w => (Return (cachedAccessToken w), w).

Definition writeCache (c : CachedToken) : Async unit :=
  fun w => (Return tt, {| cachedAccessToken := Some c; requests := requests w |}).

Section Upstream.

(** The token endpoint and the clock are the environment of a call. *)
Variable upstream : Request -> FetchOutcome.

(** [await fetch(...)]: the request is sent (and logged); a rejected
    promise is a throw. *)
Definition fetch (req : Request) : Async Response :=
  fun w =>
    let w' := {| cachedAccessToken := cachedAccessToken w;
                 requests := requests w ++ [req] |} in
    match upstream req with
    | Responded res => (Return res, w')
    | Rejected => (Throw FetchFailed, w')
    end.

(** [await res.json()] *)
Definition resJson (res : Response) : Async TokenData :=
  match json res with
  | Some data => ret data
  | None => throw JsonSyntaxError
  end.

(** ** The function *)

Definition missingEnvMessage : string :=
  "Missing Strava env vars. Provide STRAVA_ACCESS_TOKEN OR (STRAVA_CLIENT_ID, STRAVA_CLIENT_SECRET, STRAVA_REFRESH_TOKEN).".

Definition showStatus (s : Z) : string := NilZero.string_of_int (Z.to_int s).

Definition refreshFailedMessage (res : Response) : string :=
  "Strava token refresh failed (" ++ showStatus (status res) ++ "): " ++ text res.

Definition tokenRequest (clientId clientSecret refreshToken : string) : Request :=
  {| url := "https://www.strava.com/oauth/token";
     method := "POST";
     contentType := "application/x-www-form-urlencoded";
     body := [ ("client_id", clientId);
               ("client_secret", clientSecret);
               ("grant_type", "refresh_token");
               ("refresh_token", refreshToken) ] |}.

(** [cachedAccessToken && cachedAccessToken.expiresAt - 30 > now] *)
Definition stillValid (cached : option CachedToken) (now : Z) : bool :=
  match cached with
  | Some c => now <? expiresAt c - 30
  | None => false
  end.

(** [getAccessToken], for the environment [env] and [Date.now()] reading
    [dateNow] milliseconds. *)
Definition getAccessToken (env : Env) (dateNow : Z) : Async string :=
  if truthy (STRAVA_ACCESS_TOKEN env) then ret (str (STRAVA_ACCESS_TOKEN env))
  else
    let clientId := STRAVA_CLIENT_ID env in
    let clientSecret := STRAVA_CLIENT_SECRET env in
    let refreshToken := STRAVA_REFRESH_TOKEN env in
    if negb (truthy clientId) || negb (truthy clientSecret) || negb (truthy refreshToken)
    then throw (Error missingEnvMessage)
    else
      let now := dateNow / 1000 in
      cached <- readCache ;;
      if stillValid cached now
      then ret (match cached with Some c => token c | None => "" end)
      else
        res <- fetch (tokenRequest (str clientId) (str clientSecret) (str refreshToken)) ;;
        if negb (ok res)
        then throw (Error (refreshFailedMessage res))
        else
          data <- resJson res ;;
          writeCache {| token := access_token data; expiresAt := expires_at data |} ;;;
          ret (access_token data).

End Upstream.

End TokenBroker.

(* ===================================================================== *)
(** * Polyline: [decodePolyline] *)
(* ===================================================================== *)

Module Polyline.

Local Open Scope Z_scope.

(** ** JS values used by the decoder *)

(** A JS string is a sequence of UTF-16 code units. *)
Definition JsString : Type := list Z.

(** The code units of an ASCII literal. *)
Definition jsString (s : string) : JsString :=
  map (fun a => Z.of_N (N_of_ascii a)) (list_ascii_of_string s).

(** [ToInt32]: wrap into the signed 32-bit range. *)
Definition toInt32 (z : Z) : Z := (z + 2 ^ 31) mod 2 ^ 32 - 2 ^ 31.

(** [a << s] on int32 operands: the shift count is taken modulo 32 and the
    result wraps. *)
Definition shl32 (a s : Z) : Z := toInt32 (Z.shiftl a (Z.land s 31)).

(** [encoded.charCodeAt(i) - 63]: a number, or [NaN] ([None]) past the end
    of the string. *)
Definition charMinus63 (rest : JsString) : option Z :=
  option_map (fun c => c - 63) (hd_error rest).

(** [b & 0x1f]: [NaN] converts to 0. *)
Definition low5 (b : option Z) : Z :=
  match b with
  | Some z => Z.land (toInt32 z) 31
  | None => 0
  end.

(** [b >= 0x20]: false on [NaN]. *)
Definition continues (b : option Z) : bool :=
  match b with
  | Some z => 32 <=? z
  | None => false
  end.

(** An int32 as a binary64 number (exact). *)
Definition ofInt32 (z : Z) : float :=
  if z <? 0 then PrimFloat.opp (PrimFloat.of_uint63 (Uint63.of_Z (- z)))
  else PrimFloat.of_uint63 (Uint63.of_Z z).

(** ** The inner [do ... while (b >= 0x20)] loop

    [rest] is the part of [encoded] from [index] on; the loop returns
    [result] and the part of the string left after it.  Past the end of the
    string [index++] still happens, the chunk read is 0 and the loop
    stops. *)
Fixpoint readChunk (rest : JsString) (shift result : Z) : Z * JsString :=
  let b := charMinus63 rest in
  let result' := Z.lor result (shl32 (low5 b) shift) in
  match rest with
  | [] => (result', [])
  | _ :: rest' =>
      if continues b then readChunk rest' (shift + 5) result'
      else (result', rest')
  end.

(** [(result & 1) ? ~(result >> 1) : result >> 1] *)
Definition unzigzag (result : Z) : Z :=
  if Z.land result 1 =? 0 then Z.shiftr result 1
  else Z.lnot (Z.shiftr result 1).

(** [n / 1e5] *)
Definition e5 (n : float) : float := PrimFloat.div n 100000%float.

(** The inner loop consumes at least one code unit of a non-empty rest. *)
Lemma readChunk_rest_le (rest : JsString) (shift result : Z) :
  (List.length (snd (readChunk rest shift result)) <= List.length rest)%nat.
Proof.
  revert shift result.
  induction rest as [|c rest IH]; intros shift result; simpl.
  - apply Nat.le_refl.
  - destruct (32 <=? c - 63).
    + apply Nat.le_trans with (List.length rest); [apply IH | apply Nat.le_succ_diag_r].
    + apply Nat.le_succ_diag_r.
Qed.

Lemma readChunk_rest_lt (c : Z) (rest : JsString) (shift result : Z) :
  (List.length (snd (readChunk (c :: rest) shift result)) < List.length (c :: rest))%nat.
Proof.
  simpl. destruct (32 <=? c - 63).
  - apply Nat.lt_succ_r, readChunk_rest_le.
  - apply Nat.lt_succ_diag_r.
Qed.

(** A value together with the equation that names it, so that the
    termination proof of the outer loop sees what the inner loop returned. *)
Definition inspect {A : Type} (a : A) : {b : A | a = b} := exist _ a eq_refl.

(** ** The outer [while (index < len)] loop

    One pass reads the latitude chunk, then the longitude chunk, and pushes
    one pair. *)
Equations? decodeLoop (rest : JsString) (lat lng : float) : list (float * float)
  by wf (List.length rest) lt :=
  decodeLoop [] lat lng := [];
  decodeLoop (c :: r) lat lng with inspect (readChunk (c :: r) 0 0) := {
    | exist _ (result1, rest1) rd1 with inspect (readChunk rest1 0 0) := {
      | exist _ (result2, rest2) rd2 :=
          let deltaLat := unzigzag result1 in
          let lat' := PrimFloat.add lat (ofInt32 deltaLat) in
          let deltaLng := unzigzag result2 in
          let lng' := PrimFloat.add lng (ofInt32 deltaLng) in
          (e5 lat', e5 lng') :: decodeLoop rest2 lat' lng' } }.
Proof.
  change rest2 with (snd (result2, rest2)). rewrite <- rd2.
  eapply Nat.le_lt_trans; [apply readChunk_rest_le |].
  change rest1 with (snd (result1, rest1)). rewrite <- rd1.
  apply (readChunk_rest_lt c r 0 0).
Qed.

Definition decodePolyline (encoded : JsString) : list (float * float) :=
  decodeLoop encoded 0%float 0%float.

End Polyline.

(* ===================================================================== *)
(** * Binary64 numbers *)
(* ===================================================================== *)

(** JS numbers are binary64 values: the kernel's primitive floats.  This
    module reads a float through its sign, mantissa and exponent
    ([Prim2SF]) to name the rational number it denotes. *)

Module Binary64.

Local Open Scope Q_scope.

(** [x !== x] holds of NaN alone. *)
Definition isNaN (x : float) : bool := negb (x =? x)%float.


(** [m * 2^e] *)
Definition magnitude (m : positive) (e : Z) : Q := inject_Z (Zpos m) * Qpower 2 e.


(** The integer a float denotes, when it denotes one. *)
Definition integerOf (x : float) : option Z :=
  match Prim2SF x with
  | S754_zero _ => Some 0%Z
  | S754_finite sign m e =>
      let magnitude :=
        if (0 <=? e)%Z then Some (Zpos m * 2 ^ e)%Z
        else if (Zpos m mod 2 ^ (- e) =? 0)%Z then Some (Zpos m / 2 ^ (- e))%Z
             else None in
      option_map (fun z => if sign then (- z)%Z else z) magnitude
  | _ => None
  end.

(** The conversion of a number to a string on the integers every binary64
    holds exactly (magnitude up to 2^53), where it prints the integer's
    digits; the instance the examples use. *)
Definition printSafeInteger (x : float) : string :=
  match integerOf x with
  | Some z => NilZero.string_of_int (Z.to_int z)
  | None => "NaN"%string
  end.

End Binary64.

(* ===================================================================== *)
(** * Projection: [buildSvgPath] *)
(* ===================================================================== *)

(** [buildSvgPath] computes on JS numbers: every operation below is the
    binary64 operation of the source, [Math.min] and [Math.max] are the
    folds ECMAScript prescribes (from [+Infinity] and [-Infinity]; NaN
    wins; [-0] is below [+0]; no bound on the number of arguments), and
    [||] tests JS truthiness. *)

Module Projection.

Import Binary64.
Local Open Scope string_scope.
Local Open Scope float_scope.

(** The falsy numbers: [+0], [-0] and NaN. *)
Definition falsy (x : float) : bool := (x =? 0) || isNaN x.

(** [v || 1] on a number. *)
Definition orOne (v : float) : float := if falsy v then 1 else v.

Definition isNegZero (x : float) : bool :=
  match classify x with NZero => true | _ => false end.

Definition isPosZero (x : float) : bool :=
  match classify x with PZero => true | _ => false end.

(** One step of [Math.min]: [lowest] so far, then the next [number]. *)
Definition lower (lowest number : float) : float :=
  if isNaN number then nan
  else if isNaN lowest then lowest
  else if isNegZero number && isPosZero lowest then number
  else if number <? lowest then number else lowest.

(** One step of [Math.max]. *)
Definition higher (highest number : float) : float :=
  if isNaN number then nan
  else if isNaN highest then highest
  else if isPosZero number && isNegZero highest then number
  else if highest <? number then number else highest.

(** [Math.min(...l)] and [Math.max(...l)] *)
Definition MathMin (l : list float) : float := fold_left lower l infinity.
Definition MathMax (l : list float) : float := fold_left higher l neg_infinity.

Definition showNat (z : Z) : string := NilZero.string_of_int (Z.to_int z).

(** The digits of [n / 100] with two decimals. *)
Definition hundredths (n : Z) : string :=
  let frac := (n mod 100)%Z in
  showNat (n / 100)%Z ++ "." ++ (if (frac <? 10)%Z then "0" else "") ++ showNat frac.

(** [{ minX, maxX, minY, maxY }] *)
Record BBox := { bminX : float; bmaxX : float; bminY : float; bmaxY : float }.

(** [{ d, bbox }]; [bbox] is [null] on the early return. *)
Record SvgPath := { d : string; bbox : option BBox }.

Section BuildSvgPath.

(** The conversion of a number to a string, which [toFixed] falls back to
    from 1e21 on. *)
Variable NumberToString : float -> string.

(** [x.toFixed(2)]: NaN and the infinities print as such; from 1e21 on
    the number prints as [String(x)]; below, the sign, then the nearest
    multiple of 1/100 to the magnitude (of the exact value, ties going
    up), with two decimals. *)
Definition toFixed2 (x : float) : string :=
  match Prim2SF x with
  | S754_nan => "NaN"
  | S754_infinity sign => if sign then "-Infinity" else "Infinity"
  | S754_zero _ => "0.00"
  | S754_finite sign m e =>
      if Qle_bool (inject_Z (10 ^ 21)) (magnitude m e) then NumberToString x
      else (if sign then "-" else "")
             ++ hundredths (Qfloor (magnitude m e * inject_Z 100 + (1 # 2))%Q)
  end.

(** [points] are [[lat, lng]] pairs; [padding] is 16 when the caller
    leaves it out. *)
Variable points : list (float * float).
Variables width height padding : float.

Definition xs : list float := map snd points.
Definition ys : list float := map fst points.

Definition minX : float := MathMin xs.
Definition maxX : float := MathMax xs.
Definition minY : float := MathMin ys.
Definition maxY : float := MathMax ys.

Definition dx : float := orOne (maxX - minX).
Definition dy : float := orOne (maxY - minY).

Definition innerW : float := MathMax [1; width - padding * 2].
Definition innerH : float := MathMax [1; height - padding * 2].

Definition scale : float := MathMin [innerW / dx; innerH / dy].

Definition offsetX : float := padding + (innerW - dx * scale) / 2.
Definition offsetY : float := padding + (innerH - dy * scale) / 2.

Definition mapped : list (float * float) :=
  map (fun p : float * float =>
         let (lat, lng) := p in
         let x := offsetX + (lng - minX) * scale in
         let y := offsetY + (maxY - lat) * scale in
         (x, y))
      points.

(** [mapped.map(([x, y], i) => ...)]: one path command per point. *)
Fixpoint commands (i : nat) (l : list (float * float)) : list string :=
  match l with
  | [] => []
  | (x, y) :: r =>
      ((if Nat.eqb i 0 then "M" else "L") ++ " " ++ toFixed2 x ++ " " ++ toFixed2 y)
        :: commands (S i) r
  end.

Definition buildSvgPath : SvgPath :=
  if (List.length points <? 2)%nat then {| d := ""; bbox := None |}
  else
    {| d := String.concat " " (commands 0 mapped);
       bbox := Some {| bminX := minX; bmaxX := maxX; bminY := minY; bmaxY := maxY |} |}.

(** The projected coordinates a call produces: the local [mapped], and
    none when the call returns before computing it. *)
Definition projected : list (float * float) :=
  if (List.length points <? 2)%nat then [] else mapped.

End BuildSvgPath.

End Projection.

(* ===================================================================== *)
(** * The projection without rounding *)
(* ===================================================================== *)

(** The arithmetic of [buildSvgPath] on exact rationals: each operation of
    the source with its rounding left out.  This is not the program; it
    is the reference a binary64 run is compared with. *)

Module ExactProjection.

Local Open Scope Q_scope.

Definition MathMin (l : list Q) : Q :=
  match l with
  | [] => 0
  | x :: r => fold_left Qmin r x
  end.

Definition MathMax (l : list Q) : Q :=
  match l with
  | [] => 0
  | x :: r => fold_left Qmax r x
  end.

Definition orOne (v : Q) : Q := if Qeq_bool v 0 then 1 else v.

Section Exact.

Variable points : list (Q * Q).
Variables width height padding : Q.

Definition xs : list Q := map snd points.
Definition ys : list Q := map fst points.

Definition minX : Q := MathMin xs.
Definition maxX : Q := MathMax xs.
Definition minY : Q := MathMin ys.
Definition maxY : Q := MathMax ys.

Definition dx : Q := orOne (maxX - minX).
Definition dy : Q := orOne (maxY - minY).

Definition innerW : Q := Qmax 1 (width - padding * 2).
Definition innerH : Q := Qmax 1 (height - padding * 2).

Definition scale : Q := Qmin (innerW / dx) (innerH / dy).

Definition offsetX : Q := padding + (innerW - dx * scale) / 2.
Definition offsetY : Q := padding + (innerH - dy * scale) / 2.

Definition mapped : list (Q * Q) :=
  map (fun p : Q * Q =>
         let (lat, lng) := p in
         let x := offsetX + (lng - minX) * scale in
         let y := offsetY + (maxY - lat) * scale in
         (x, y))
      points.

End Exact.

End ExactProjection.

(* ===================================================================== *)
(** * Route handler: [GET] of src/app/api/strava/route/route.ts *)
(* ===================================================================== *)

(** The handler that serves [/api/strava/route]: it resolves the route id,
    asks [getAccessToken] for a token, fetches the route and answers with a
    JSON body.  Everything after the route id check runs inside
    [try { ... } catch (e) { ... }]. *)

Module RouteHandler.

Import TokenBroker.
Local Open Scope string_scope.
Local Open Scope Z_scope.

(** ** Data *)

(** [map?: { summary_polyline?: string }] *)
Record RouteMap := { summary_polyline : option string }.

(** [StravaRoute], the parsed body of the route endpoint.  Its numbers
    are JS numbers: binary64 values, as [JSON.parse] produces them. *)
Record StravaRoute := {
  route_id : float;
  route_name : string;
  route_distance : float;
  route_elevation_gain : float;
  route_map : option RouteMap
}.

(** The call [fetch(url, { headers: { Authorization }, cache: "no-store" })]. *)
Record RouteRequest := { routeUrl : string; authorization : string }.

Record RouteResponse := {
  routeStatus : Z;
  routeText : string;
  routeJson : option StravaRoute
}.

Definition routeOk (res : RouteResponse) : bool :=
  (200 <=? routeStatus res) && (routeStatus res <=? 299).

Inductive RouteFetchOutcome :=
| RouteResponded (res : RouteResponse)
| RouteRejected.

(** The JSON bodies the handler answers with. *)
Inductive JsonBody :=
| ErrorBody (error : string) (details : option string)
| RouteBody (id : float) (name : string) (distance elevation_gain : float)
            (summary_polyline : option string) (strava_url : string).

Record HttpResponse := { httpStatus : Z; httpBody : JsonBody }.

(** What the [try] block can throw: whatever [getAccessToken] threw, a
    rejected route [fetch], a route body that is not JSON, or the
    [RangeError]/[TypeError] of building a response with a status that a
    response with a body cannot carry. *)
Inductive Thrown :=
| TokenThrew (e : JsError)
| RouteFetchRejected
| RouteJsonSyntaxError
| ResponseInitError.

(** The server process: the token module's world and the route requests
    sent so far. *)
Record Server := {
  tokenWorld : World;
  routeRequests : list RouteRequest
}.

Inductive Try (A : Type) :=
| Done (a : A)
| Raised (t : Thrown).
Arguments Done {A} a.
Arguments Raised {A} t.

(** A status a response with a body may carry: 200 to 599, and not one of
    the null-body statuses. *)
Definition bodyStatus (s : Z) : bool :=
  (200 <=? s) && (s <=? 599)
  && negb ((s =? 204) || (s =? 205) || (s =? 304)).

(** [NextResponse.json(body, { status })] *)
Definition nextResponseJson (body : JsonBody) (status : Z) : Try HttpResponse :=
  if bodyStatus status then Done {| httpStatus := status; httpBody := body |}
  else Raised ResponseInitError.

Definition missingRouteIdMessage : string :=
  "Missing routeId. Provide ?routeId=... or STRAVA_DEFAULT_ROUTE_ID.".

Definition routeFetchFailedMessage (res : RouteResponse) : string :=
  "Strava route fetch failed (" ++ showStatus (routeStatus res) ++ ")".

Definition routeRequest (routeId token : string) : RouteRequest :=
  {| routeUrl := "https://www.strava.com/api/v3/routes/" ++ routeId;
     authorization := "Bearer " ++ token |}.

(** [route.map?.summary_polyline || null] *)
Definition summaryOrNull (route : StravaRoute) : option string :=
  match route_map route with
  | Some m => if truthy (summary_polyline m) then summary_polyline m else None
  | None => None
  end.

Section Handler.

(** The two upstream endpoints, the [message] of the errors whose text is
    the runtime's, and the language's conversion of a number to a string
    (the shortest decimal digits that read back as the same binary64),
    which the template literal applies to [route.id]. *)
Variable tokenUpstream : Request -> FetchOutcome.
Variable routeUpstream : RouteRequest -> RouteFetchOutcome.
Variable runtimeMessage : Thrown -> string.
Variable NumberToString : float -> string.

Definition routeBody (route : StravaRoute) : JsonBody :=
  RouteBody (route_id route) (route_name route)
            (route_distance route) (route_elevation_gain route)
            (summaryOrNull route)
            ("https://www.strava.com/routes/" ++ NumberToString (route_id route)).

(** [e?.message ?? "Unknown error"]: every value thrown here is an error
    object with a message. *)
Definition messageOf (t : Thrown) : string :=
  match t with
  | TokenThrew (Error message) => message
  | _ => runtimeMessage t
  end.

(** [a || b] on [string | null | undefined] operands. *)
Definition orElse (a b : option string) : option string :=
  if truthy a then a else b.

Definition withWorld (s : Server) (w : World) : Server :=
  {| tokenWorld := w; routeRequests := routeRequests s |}.

Definition sendRoute (s : Server) (req : RouteRequest) : Server :=
  {| tokenWorld := tokenWorld s; routeRequests := routeRequests s ++ [req] |}.

(** The body of the [try] block.  [routeIdParam] is
    [searchParams.get("routeId")], [defaultRouteId] is
    [process.env.STRAVA_DEFAULT_ROUTE_ID]. *)
Definition tryGET (env : Env) (defaultRouteId routeIdParam : option string)
    (dateNow : Z) (s : Server) : Try HttpResponse * Server :=
  let routeId := orElse routeIdParam defaultRouteId in
  if negb (truthy routeId)
  then (nextResponseJson (ErrorBody missingRouteIdMessage None) 400, s)
  else
    match getAccessToken tokenUpstream env dateNow (tokenWorld s) with
    | (Throw e, w) => (Raised (TokenThrew e), withWorld s w)
    | (Return token, w) =>
        let req := routeRequest (str routeId) token in
        let s' := sendRoute (withWorld s w) req in
        match routeUpstream req with
        | RouteRejected => (Raised RouteFetchRejected, s')
        | RouteResponded res =>
            if negb (routeOk res)
            then (nextResponseJson
                    (ErrorBody (routeFetchFailedMessage res) (Some (routeText res)))
                    (routeStatus res), s')
            else
              match routeJson res with
              | None => (Raised RouteJsonSyntaxError, s')
              | Some route => (nextResponseJson (routeBody route) 200, s')
              end
        end
    end.

(** [GET]: the [try] block, and the [catch] that answers 500 with the
    message of what was thrown. *)
Definition GET (env : Env) (defaultRouteId routeIdParam : option string)
    (dateNow : Z) (s : Server) : HttpResponse * Server :=
  match tryGET env defaultRouteId routeIdParam dateNow s with
  | (Done response, s') => (response, s')
  | (Raised t, s') =>
      ({| httpStatus := 500; httpBody := ErrorBody (messageOf t) None |}, s')
  end.

End Handler.

End RouteHandler.

(* ===================================================================== *)
(** * Activities handler: the earlier variant of route.ts *)
(* ===================================================================== *)

(** The first variant of the file: [getAccessToken] without a cache, and a
    [GET] that lists the athlete's activities and keeps the runs.  Whatever
    is thrown inside [GET] is logged and answered with one fixed error. *)

Module ActivitiesHandler.

Import TokenBroker.
Local Open Scope string_scope.
Local Open Scope Z_scope.

(** The fields of an activity the application reads. *)
Record Activity := {
  activity_id : Z;
  activity_name : string;
  activity_distance : Q;
  moving_time : Q;
  start_date : string;
  activity_type : string
}.

(** The requests of this variant.  [JSON.stringify] leaves out a key whose
    value is [undefined], hence the optional fields of the token request;
    [grant_type] is always ["refresh_token"]. *)
Inductive Sent :=
| TokenPost (client_id client_secret refresh_token : option string)
| ActivitiesGet (url authorization : string).

(** The token endpoint's answer is a [Response] of the token module; the
    activities endpoint answers with a status and, when the body parses to
    an array, the activities. *)
Record ActivitiesResponse := {
  activitiesStatus : Z;
  activitiesJson : option (list Activity)
}.

Definition activitiesOk (res : ActivitiesResponse) : bool :=
  (200 <=? activitiesStatus res) && (activitiesStatus res <=? 299).

Inductive ActivitiesOutcome :=
| ActivitiesResponded (res : ActivitiesResponse)
| ActivitiesRejected.

(** What is thrown: an [Error] of the code's own, or an error of the
    runtime (a rejected [fetch], a body that does not parse, a body that is
    not an array). *)
Inductive Thrown :=
| OwnError (message : string)
| RuntimeError.

Inductive Try (A : Type) :=
| Done (a : A)
| Raised (t : Thrown).
Arguments Done {A} a.
Arguments Raised {A} t.

Inductive JsonBody :=
| ActivitiesBody (activities : list Activity)
| ErrorBody (error : string).

Record HttpResponse := { httpStatus : Z; httpBody : JsonBody }.

Definition STRAVA_API_BASE : string := "https://www.strava.com/api/v3".
Definition ACTIVITIES_PER_PAGE : Z := 30.

Definition activitiesUrl : string :=
  STRAVA_API_BASE ++ "/athlete/activities?per_page=" ++ showStatus ACTIVITIES_PER_PAGE.

Section Handler.

Variable tokenUpstream : Sent -> FetchOutcome.
Variable activitiesUpstream : Sent -> ActivitiesOutcome.

(** [getAccessToken] of this variant: one POST per call; [log] is the list
    of requests sent so far. *)
Definition getAccessToken (env : Env) (log : list Sent) : Try string * list Sent :=
  let req := TokenPost (STRAVA_CLIENT_ID env) (STRAVA_CLIENT_SECRET env)
                       (STRAVA_REFRESH_TOKEN env) in
  let log' := (log ++ [req])%list in
  match tokenUpstream req with
  | Rejected => (Raised RuntimeError, log')
  | Responded response =>
      if negb (ok response)
      then (Raised (OwnError "Failed to refresh Strava access token"), log')
      else
        match json response with
        | None => (Raised RuntimeError, log')
        | Some data => (Done (access_token data), log')
        end
  end.

(** [activity.type === "Run"] *)
Definition isRun (activity : Activity) : bool :=
  (activity_type activity =? "Run")%string.

(** The [try] block of [GET]. *)
Definition tryGET (env : Env) (log : list Sent) : Try HttpResponse * list Sent :=
  match getAccessToken env log with
  | (Raised t, log') => (Raised t, log')
  | (Done accessToken, log') =>
      let req := ActivitiesGet activitiesUrl ("Bearer " ++ accessToken) in
      let log'' := (log' ++ [req])%list in
      match activitiesUpstream req with
      | ActivitiesRejected => (Raised RuntimeError, log'')
      | ActivitiesResponded activitiesResponse =>
          if negb (activitiesOk activitiesResponse)
          then (Raised (OwnError "Failed to fetch Strava activities"), log'')
          else
            match activitiesJson activitiesResponse with
            | None => (Raised RuntimeError, log'')
            | Some activities =>
                let runs := filter isRun activities in
                (Done {| httpStatus := 200; httpBody := ActivitiesBody runs |}, log'')
            end
      end
  end.

(** [GET]: the [catch] answers 500 with a fixed message. *)
Definition GET (env : Env) (log : list Sent) : HttpResponse * list Sent :=
  match tryGET env log with
  | (Done response, log') => (response, log')
  | (Raised _, log') =>
      ({| httpStatus := 500; httpBody := ErrorBody "Failed to fetch Strava data" |}, log')
  end.

End Handler.

End ActivitiesHandler.

(* ===================================================================== *)
(** * Weekly progress: the activities page *)
(* ===================================================================== *)

(** The two numbers the activities page computes from the runs it was
    given (src/app/challenge/mission-client.tsx), on binary64 numbers. *)

Module WeeklyProgress.

Import Projection.
Local Open Scope float_scope.

(** [interface Activity] of the page. *)
Record Activity := {
  id : float;
  name : string;
  distance : float;
  moving_time : float;
  start_date : string;
  type : string
}.

(** [activities.reduce((sum, activity) => sum + activity.distance / 1000, 0)] *)
Definition totalKm (activities : list Activity) : float :=
  fold_left (fun sum activity => sum + distance activity / 1000) activities 0.

(** [Math.min((totalKm / weeklyGoalKm) * 100, 100)] *)
Definition progressPercent (activities : list Activity) (weeklyGoalKm : float) : float :=
  MathMin [(totalKm activities / weeklyGoalKm) * 100; 100].

End WeeklyProgress.

(* ===================================================================== *)
(** * Pace and time: [parsePaceToSeconds] and [formatHMS] *)
(* ===================================================================== *)

Module Pace.

Import Polyline.
Local Open Scope string_scope.
Local Open Scope Z_scope.

(** ** [pace.trim()] *)

(** The code units [trim] removes: the white space and line terminator
    characters of the language. *)
Definition isWhiteSpace (c : Z) : bool :=
  (c =? 9) || (c =? 10) || (c =? 11) || (c =? 12) || (c =? 13) || (c =? 32)
  || (c =? 160) || (c =? 5760)
  || ((8192 <=? c) && (c <=? 8202))
  || (c =? 8232) || (c =? 8233) || (c =? 8239) || (c =? 8287)
  || (c =? 12288) || (c =? 65279).

Fixpoint trimStart (s : JsString) : JsString :=
  match s with
  | [] => []
  | c :: r => if isWhiteSpace c then trimStart r else s
  end.

Definition trim (s : JsString) : JsString :=
  rev (trimStart (rev (trimStart s))).

(** ** The match against [/^(\d{1,2}):([0-5]\d)$/] *)

(** [\d]: an ASCII digit. *)
Definition isDigit (c : Z) : bool := (48 <=? c) && (c <=? 57).

(** [[0-5]] *)
Definition isDigit05 (c : Z) : bool := (48 <=? c) && (c <=? 53).

(** [:] *)
Definition isColon (c : Z) : bool := c =? 58.

(** The two groups of the match, or [None] when the string does not
    match: one or two digits, a colon, a digit up to 5, a digit, and
    nothing else. *)
Definition matchPace (s : JsString) : option (JsString * JsString) :=
  match s with
  | [m1; c; s1; s2] =>
      if isDigit m1 && isColon c && isDigit05 s1 && isDigit s2
      then Some ([m1], [s1; s2]) else None
  | [m1; m2; c; s1; s2] =>
      if isDigit m1 && isDigit m2 && isColon c && isDigit05 s1 && isDigit s2
      then Some ([m1; m2], [s1; s2]) else None
  | _ => None
  end.

(** [Number(group)] on a group of ASCII digits. *)
Definition NumberOfDigits (digits : JsString) : Z :=
  fold_left (fun acc c => acc * 10 + (c - 48)) digits 0.

Definition parsePaceToSeconds (pace : JsString) : option Z :=
  let trimmed := trim pace in
  match matchPace trimmed with
  | None => None
  | Some (g1, g2) =>
      let mm := NumberOfDigits g1 in
      let ss := NumberOfDigits g2 in
      Some (mm * 60 + ss)
  end.

(** ** [formatHMS] *)

(** [Math.round]: the nearest integer, a tie going up. *)
Definition MathRound (x : Q) : Z := Qfloor (x + (1 # 2)).

(** [String(n)] for a non-negative integer (below 1e21, where JS prints
    all the digits). *)
Definition StringOfInt (n : Z) : string := NilZero.string_of_int (Z.to_int n).

(** [str.padStart(2, "0")] *)
Definition padStart2 (str : string) : string :=
  match String.length str with
  | O => "00" ++ str
  | S O => "0" ++ str
  | _ => str
  end.

Definition formatHMS (totalSeconds : Q) : string :=
  let s := Z.max 0 (MathRound totalSeconds) in
  let h := s / 3600 in
  let m := (s mod 3600) / 60 in
  let sec := s mod 60 in
  if 0 <? h
  then StringOfInt h ++ ":" ++ padStart2 (StringOfInt m) ++ ":" ++ padStart2 (StringOfInt sec)
  else StringOfInt m ++ ":" ++ padStart2 (StringOfInt sec).

End Pace.

(* ===================================================================== *)
(** * Properties of [getAccessToken] *)
(* ===================================================================== *)

Module TokenBrokerSpec.

Import TokenBroker.
Local Open Scope string_scope.
Local Open Scope Z_scope.

(** The refresh request a call sends for [env]. *)
Definition refreshRequest (env : Env) : Request :=
  tokenRequest (str (STRAVA_CLIENT_ID env)) (str (STRAVA_CLIENT_SECRET env))
               (str (STRAVA_REFRESH_TOKEN env)).

(** *** Concrete data for the examples *)

Definition envFull : Env :=
  {| STRAVA_ACCESS_TOKEN := None;
     STRAVA_CLIENT_ID := Some "12345";
     STRAVA_CLIENT_SECRET := Some "s3cret";
     STRAVA_REFRESH_TOKEN := Some "r3fresh" |}.

Definition envStatic : Env :=
  {| STRAVA_ACCESS_TOKEN := Some "static-token";
     STRAVA_CLIENT_ID := None;
     STRAVA_CLIENT_SECRET := None;
     STRAVA_REFRESH_TOKEN := None |}.

(** Only the client id is missing. *)
Definition envNoClientId : Env :=
  {| STRAVA_ACCESS_TOKEN := None;
     STRAVA_CLIENT_ID := None;
     STRAVA_CLIENT_SECRET := Some "s3cret";
     STRAVA_REFRESH_TOKEN := Some "r3fresh" |}.

(** Only the refresh token is missing (set, but empty). *)
Definition envNoRefreshToken : Env :=
  {| STRAVA_ACCESS_TOKEN := Some "";
     STRAVA_CLIENT_ID := Some "12345";
     STRAVA_CLIENT_SECRET := Some "s3cret";
     STRAVA_REFRESH_TOKEN := Some "" |}.

Definition worldWith (c : option CachedToken) : World :=
  {| cachedAccessToken := c; requests := [] |}.

Definition upstreamOk : Request -> FetchOutcome :=
  fun _ => Responded {| status := 200; text := "{...}";
                        json := Some {| access_token := "fresh"; expires_at := 1700021600 |} |}.

Definition upstreamUnauthorized : Request -> FetchOutcome :=
  fun _ => Responded {| status := 401; text := "Unauthorized"; json := None |}.

(** *** Vocabulary for the error message *)

(** The three credentials of the refresh flow. *)
Inductive Credential := ClientId | ClientSecret | RefreshToken.

Definition varName (v : Credential) : string :=
  match v with
  | ClientId => "STRAVA_CLIENT_ID"
  | ClientSecret => "STRAVA_CLIENT_SECRET"
  | RefreshToken => "STRAVA_REFRESH_TOKEN"
  end.

Definition valueIn (env : Env) (v : Credential) : option string :=
  match v with
  | ClientId => STRAVA_CLIENT_ID env
  | ClientSecret => STRAVA_CLIENT_SECRET env
  | RefreshToken => STRAVA_REFRESH_TOKEN env
  end.

(** [needle] occurs in [hay]. *)
Fixpoint mentions (hay needle : string) : bool :=
  String.prefix needle hay
  || match hay with
     | EmptyString => false
     | String _ rest => mentions rest needle
     end.

(** A message enumerates exactly the missing credentials when it names a
    credential if and only if that credential is absent. *)
Definition EnumeratesExactlyMissing (env : Env) (message : string) : Prop :=
  forall v : Credential,
    mentions message (varName v) = true <-> truthy (valueIn env v) = false.

(** *** Shared lemmas *)

Lemma static_token_returned upstream env dateNow w :
  truthy (STRAVA_ACCESS_TOKEN env) = true ->
  getAccessToken upstream env dateNow w = (Return (str (STRAVA_ACCESS_TOKEN env)), w).
Proof.
  intros Hs. unfold getAccessToken. rewrite Hs. reflexivity.
Qed.

Lemma missing_credentials_throw upstream env dateNow w :
  truthy (STRAVA_ACCESS_TOKEN env) = false ->
  truthy (STRAVA_CLIENT_ID env) = false
  \/ truthy (STRAVA_CLIENT_SECRET env) = false
  \/ truthy (STRAVA_REFRESH_TOKEN env) = false ->
  getAccessToken upstream env dateNow w = (Throw (Error missingEnvMessage), w).
Proof.
  intros Hs Hm. unfold getAccessToken. rewrite Hs.
  assert (Hc : negb (truthy (STRAVA_CLIENT_ID env))
               || negb (truthy (STRAVA_CLIENT_SECRET env))
               || negb (truthy (STRAVA_REFRESH_TOKEN env)) = true).
  { destruct Hm as [H | [H | H]]; rewrite H; simpl;
      rewrite ?orb_true_r; reflexivity. }
  rewrite Hc. reflexivity.
Qed.

(** With the credentials present and no static token, the call is the
    cache test followed by the refresh. *)
Lemma with_credentials upstream env dateNow w :
  truthy (STRAVA_ACCESS_TOKEN env) = false ->
  truthy (STRAVA_CLIENT_ID env) = true ->
  truthy (STRAVA_CLIENT_SECRET env) = true ->
  truthy (STRAVA_REFRESH_TOKEN env) = true ->
  getAccessToken upstream env dateNow w =
    if stillValid (cachedAccessToken w) (dateNow / 1000)
    then (Return (match cachedAccessToken w with Some c => token c | None => "" end), w)
    else
      let w' := {| cachedAccessToken := cachedAccessToken w;
                   requests := requests w ++ [refreshRequest env] |} in
      match upstream (refreshRequest env) with
      | Rejected => (Throw FetchFailed, w')
      | Responded res =>
          if ok res then
            match json res with
            | None => (Throw JsonSyntaxError, w')
            | Some data =>
                (Return (access_token data),
                 {| cachedAccessToken :=
                      Some {| token := access_token data; expiresAt := expires_at data |};
                    requests := requests w' |})
            end
          else (Throw (Error (refreshFailedMessage res)), w')
      end.
Proof.
  intros Hs Hi Hc Hr. unfold getAccessToken. rewrite Hs, Hi, Hc, Hr. simpl.
  unfold bind, readCache. fold (refreshRequest env).
  destruct (stillValid (cachedAccessToken w) (dateNow / 1000)); [reflexivity |].
  unfold fetch.
  destruct (upstream (refreshRequest env)) as [res |]; [| reflexivity].
  destruct (ok res); simpl; [| reflexivity].
  unfold resJson. destruct (json res); reflexivity.
Qed.

(** A cache entry that is no longer valid is refreshed: the request goes
    out. *)
Lemma expired_token_refreshes upstream env dateNow w c :
  truthy (STRAVA_ACCESS_TOKEN env) = false ->
  truthy (STRAVA_CLIENT_ID env) = true ->
  truthy (STRAVA_CLIENT_SECRET env) = true ->
  truthy (STRAVA_REFRESH_TOKEN env) = true ->
  cachedAccessToken w = Some c ->
  expiresAt c - 30 <= dateNow / 1000 ->
  requests (snd (getAccessToken upstream env dateNow w))
    = (requests w ++ [refreshRequest env])%list.
Proof.
  intros Hs Hi Hc Hr Hw He.
  rewrite with_credentials by assumption.
  rewrite Hw. simpl.
  replace (dateNow / 1000 <? expiresAt c - 30) with false
    by (symmetry; apply Z.ltb_ge; exact He).
  destruct (upstream (refreshRequest env)) as [res |]; [| reflexivity].
  destruct (ok res); [| reflexivity].
  destruct (json res); reflexivity.
Qed.

(** *** The claims *)

Definition epochMs : Z := 1700000000123.

Definition freshEntry : CachedToken := {| token := "cached"; expiresAt := 1700000031 |}.
Definition boundaryEntry : CachedToken := {| token := "cached"; expiresAt := 1700000030 |}.
Definition staleEntry : CachedToken := {| token := "stale"; expiresAt := 5 |}.

(** C1: with no static token and all three credentials present, a cached
    token whose [expiresAt - 30] is strictly greater than the current epoch
    second is returned and nothing else happens (the world, and with it the
    request log, is unchanged).  A cached token whose [expiresAt - 30] is not
    greater, in particular one whose [expiresAt] is exactly [now + 30], is
    treated as expired: the refresh request is sent and the call is the
    refresh, whose outcome it returns or throws; the old token is not
    returned, and a successful refresh replaces the cache entry. *)
Theorem cached_token_fast_path_and_boundary upstream env dateNow w c :
  truthy (STRAVA_ACCESS_TOKEN env) = false ->
  truthy (STRAVA_CLIENT_ID env) = true ->
  truthy (STRAVA_CLIENT_SECRET env) = true ->
  truthy (STRAVA_REFRESH_TOKEN env) = true ->
  cachedAccessToken w = Some c ->
  (expiresAt c - 30 > dateNow / 1000 ->
     getAccessToken upstream env dateNow w = (Return (token c), w))
  /\ (expiresAt c = dateNow / 1000 + 30 ->
       requests (snd (getAccessToken upstream env dateNow w))
         = (requests w ++ [refreshRequest env])%list)
  /\ (expiresAt c - 30 <= dateNow / 1000 ->
       getAccessToken upstream env dateNow w
       = let sent := {| cachedAccessToken := Some c;
                        requests := (requests w ++ [refreshRequest env])%list |} in
         match upstream (refreshRequest env) with
         | Rejected => (Throw FetchFailed, sent)
         | Responded res =>
             if ok res then
               match json res with
               | None => (Throw JsonSyntaxError, sent)
               | Some data =>
                   (Return (access_token data),
                    {| cachedAccessToken :=
                         Some {| token := access_token data;
                                 expiresAt := expires_at data |};
                       requests := requests sent |})
               end
             else (Throw (Error (refreshFailedMessage res)), sent)
         end).
Proof.
  intros Hs Hi Hc Hr Hw. split; [| split].
  - intros Hv. rewrite with_credentials by assumption.
    rewrite Hw. simpl.
    replace (dateNow / 1000 <? expiresAt c - 30) with true
      by (symmetry; apply Z.ltb_lt; lia).
    reflexivity.
  - intros Hb. apply expired_token_refreshes with (c := c); try assumption. lia.
  - intros He. rewrite with_credentials by assumption.
    rewrite Hw. simpl stillValid.
    replace (dateNow / 1000 <? expiresAt c - 30) with false
      by (symmetry; apply Z.ltb_ge; exact He).
    reflexivity.
Qed.

Lemma cached_token_fast_path_and_boundary_witness :
  getAccessToken upstreamOk envFull epochMs (worldWith (Some freshEntry))
    = (Return "cached", worldWith (Some freshEntry))
  /\ requests (snd (getAccessToken upstreamOk envFull epochMs (worldWith (Some boundaryEntry))))
      = [refreshRequest envFull]
  /\ getAccessToken upstreamOk envFull epochMs (worldWith (Some boundaryEntry))
     = (Return "fresh",
        {| cachedAccessToken := Some {| token := "fresh"; expiresAt := 1700021600 |};
           requests := [refreshRequest envFull] |}).
Proof.
  split; [| split].
  - apply (proj1 (cached_token_fast_path_and_boundary upstreamOk envFull epochMs
                    (worldWith (Some freshEntry)) freshEntry
                    eq_refl eq_refl eq_refl eq_refl eq_refl)).
    reflexivity.
  - apply (proj1 (proj2 (cached_token_fast_path_and_boundary upstreamOk envFull epochMs
                    (worldWith (Some boundaryEntry)) boundaryEntry
                    eq_refl eq_refl eq_refl eq_refl eq_refl))).
    reflexivity.
  - apply (proj2 (proj2 (cached_token_fast_path_and_boundary upstreamOk envFull epochMs
                    (worldWith (Some boundaryEntry)) boundaryEntry
                    eq_refl eq_refl eq_refl eq_refl eq_refl))).
    vm_compute. discriminate.
Defined.

(** C4: when the token endpoint answers the refresh request with a non-2xx
    response, the cache slot after the call is the cache slot before it;
    and whatever happens, the slot is either untouched or holds, whole, the
    token and expiry of a successful refresh whose token is returned. *)
Theorem failed_refresh_keeps_cache upstream env dateNow w :
  let out := getAccessToken upstream env dateNow w in
  (forall res,
      upstream (refreshRequest env) = Responded res -> ok res = false ->
      cachedAccessToken (snd out) = cachedAccessToken w)
  /\ (cachedAccessToken (snd out) = cachedAccessToken w
      \/ exists res data,
           upstream (refreshRequest env) = Responded res
           /\ ok res = true
           /\ json res = Some data
           /\ fst out = Return (access_token data)
           /\ cachedAccessToken (snd out)
              = Some {| token := access_token data; expiresAt := expires_at data |}).
Proof.
  cbv zeta.
  destruct (truthy (STRAVA_ACCESS_TOKEN env)) eqn:Hs.
  { rewrite static_token_returned by assumption. simpl. auto. }
  destruct (truthy (STRAVA_CLIENT_ID env)) eqn:Hi;
    [| rewrite missing_credentials_throw by auto; simpl; auto ].
  destruct (truthy (STRAVA_CLIENT_SECRET env)) eqn:Hc;
    [| rewrite missing_credentials_throw by auto; simpl; auto ].
  destruct (truthy (STRAVA_REFRESH_TOKEN env)) eqn:Hr;
    [| rewrite missing_credentials_throw by auto; simpl; auto ].
  rewrite with_credentials by assumption.
  destruct (stillValid (cachedAccessToken w) (dateNow / 1000)); [simpl; auto |].
  cbv zeta.
  destruct (upstream (refreshRequest env)) as [res |] eqn:Hu; [| simpl; auto ].
  destruct (ok res) eqn:Hok.
  - destruct (json res) as [data |] eqn:Hj; simpl.
    + split.
      * intros res' Hres' Hok'. inversion Hres'; subst res'. congruence.
      * right. exists res, data. auto.
    + auto.
  - simpl. auto.
Qed.

Lemma failed_refresh_keeps_cache_witness :
  cachedAccessToken
    (snd (getAccessToken upstreamUnauthorized envFull epochMs (worldWith (Some staleEntry))))
  = Some staleEntry.
Proof.
  apply (proj1 (failed_refresh_keeps_cache upstreamUnauthorized envFull epochMs
                  (worldWith (Some staleEntry)))
               {| status := 401; text := "Unauthorized"; json := None |});
    reflexivity.
Defined.

(** C5, as stated, fails: with only the client id missing the message
    thrown also names the client secret and the refresh token, which are
    present. *)
Lemma missing_message_names_present_credentials :
  exists message,
    fst (getAccessToken upstreamOk envNoClientId epochMs (worldWith None))
      = Throw (Error message)
    /\ mentions message (varName ClientSecret) = true
    /\ truthy (valueIn envNoClientId ClientSecret) = true
    /\ ~ EnumeratesExactlyMissing envNoClientId message.
Proof.
  exists missingEnvMessage.
  split; [reflexivity |]. split; [reflexivity |]. split; [reflexivity |].
  intros H. destruct (H ClientSecret) as [Hm _].
  specialize (Hm eq_refl). discriminate Hm.
Qed.

(** C5, amended: with no static token and at least one of the three
    credentials absent, the call throws an error whose message is one fixed
    text, the same whichever credentials are missing; it names all three
    variables.  Nothing else happens. *)
Theorem missing_credentials_fixed_message upstream env dateNow w :
  truthy (STRAVA_ACCESS_TOKEN env) = false ->
  truthy (STRAVA_CLIENT_ID env) = false
  \/ truthy (STRAVA_CLIENT_SECRET env) = false
  \/ truthy (STRAVA_REFRESH_TOKEN env) = false ->
  getAccessToken upstream env dateNow w = (Throw (Error missingEnvMessage), w)
  /\ forall v : Credential, mentions missingEnvMessage (varName v) = true.
Proof.
  intros Hs Hm. split.
  - apply missing_credentials_throw; assumption.
  - intros v. destruct v; reflexivity.
Qed.

Lemma missing_credentials_fixed_message_witness :
  getAccessToken upstreamOk envNoRefreshToken epochMs (worldWith None)
    = (Throw (Error missingEnvMessage), worldWith None)
  /\ forall v : Credential, mentions missingEnvMessage (varName v) = true.
Proof.
  apply (missing_credentials_fixed_message upstreamOk envNoRefreshToken epochMs
           (worldWith None) eq_refl (or_intror (or_intror eq_refl))).
Defined.

(** C8: when a static access token is configured (set and not empty), the
    call returns it whatever the cache holds, expired or not, and nothing
    else happens: the cache and the request log are unchanged. *)
Theorem static_token_bypass upstream env dateNow w s :
  STRAVA_ACCESS_TOKEN env = Some s ->
  s <> "" ->
  getAccessToken upstream env dateNow w = (Return s, w).
Proof.
  intros He Hn.
  rewrite static_token_returned.
  - rewrite He. reflexivity.
  - rewrite He. simpl. apply negb_true_iff, String.eqb_neq. exact Hn.
Qed.

Lemma static_token_bypass_witness :
  getAccessToken upstreamUnauthorized envStatic epochMs (worldWith (Some staleEntry))
    = (Return "static-token", worldWith (Some staleEntry)).
Proof.
  apply (static_token_bypass upstreamUnauthorized envStatic epochMs
           (worldWith (Some staleEntry)) "static-token" eq_refl).
  discriminate.
Defined.

(** C10: with no static token and a credential absent, the call throws the
    configuration error even though the cache holds a token that is still
    valid ([expiresAt - 30 > now]); the cached token is not returned. *)
Theorem credentials_checked_before_cache upstream env dateNow w c :
  truthy (STRAVA_ACCESS_TOKEN env) = false ->
  truthy (STRAVA_CLIENT_ID env) = false
  \/ truthy (STRAVA_CLIENT_SECRET env) = false
  \/ truthy (STRAVA_REFRESH_TOKEN env) = false ->
  cachedAccessToken w = Some c ->
  expiresAt c - 30 > dateNow / 1000 ->
  stillValid (cachedAccessToken w) (dateNow / 1000) = true
  /\ getAccessToken upstream env dateNow w = (Throw (Error missingEnvMessage), w).
Proof.
  intros Hs Hm Hw Hv. split.
  - rewrite Hw. simpl. apply Z.ltb_lt. lia.
  - apply missing_credentials_throw; assumption.
Qed.

Lemma credentials_checked_before_cache_witness :
  stillValid (cachedAccessToken (worldWith (Some freshEntry))) (epochMs / 1000) = true
  /\ getAccessToken upstreamOk envNoClientId epochMs (worldWith (Some freshEntry))
     = (Throw (Error missingEnvMessage), worldWith (Some freshEntry)).
Proof.
  apply (credentials_checked_before_cache upstreamOk envNoClientId epochMs
           (worldWith (Some freshEntry)) freshEntry eq_refl (or_introl eq_refl) eq_refl).
  reflexivity.
Defined.

End TokenBrokerSpec.

(* ===================================================================== *)
(** * Properties of [decodePolyline] *)
(* ===================================================================== *)

Module PolylineSpec.

Import Polyline.
Local Open Scope Z_scope.

(** One pass of the outer loop, as an equation: on a non-empty rest the
    loop reads two chunks, pushes one pair and goes on with what is left. *)
Lemma decodeLoop_pass (c : Z) (r : JsString) (lat lng : float) :
  let rd1 := readChunk (c :: r) 0 0 in
  let lat' := PrimFloat.add lat (ofInt32 (unzigzag (fst rd1))) in
  let rd2 := readChunk (snd rd1) 0 0 in
  let lng' := PrimFloat.add lng (ofInt32 (unzigzag (fst rd2))) in
  decodeLoop (c :: r) lat lng = (e5 lat', e5 lng') :: decodeLoop (snd rd2) lat' lng'.
Proof.
  cbv zeta. simp decodeLoop.
  destruct (inspect (readChunk (c :: r) 0 0)) as [[result1 rest1] E1].
  assert (F1 : fst (readChunk (c :: r) 0 0) = result1) by (rewrite E1; reflexivity).
  assert (S1 : snd (readChunk (c :: r) 0 0) = rest1) by (rewrite E1; reflexivity).
  rewrite F1, S1. simp decodeLoop.
  destruct (inspect (readChunk rest1 0 0)) as [[result2 rest2] E2].
  assert (F2 : fst (readChunk rest1 0 0) = result2) by (rewrite E2; reflexivity).
  assert (S2 : snd (readChunk rest1 0 0) = rest2) by (rewrite E2; reflexivity).
  rewrite F2, S2. simp decodeLoop.
  reflexivity.
Qed.

(** The reference polyline of the encoding's documentation. *)
Definition referencePolyline : JsString := jsString "_p~iF~ps|U_ulLnnqC_mqNvxq`@".

(** The first five characters of it: the first latitude, and nothing of
    the longitude. *)
Definition latitudeOnly : JsString := jsString "_p~iF".

(** The first three characters: a latitude cut before its last chunk. *)
Definition cutLatitude : JsString := jsString "_p~".

(** C2: decoding the reference polyline gives the three reference
    coordinates, in order, as the binary64 numbers those decimals
    denote. *)
Theorem decode_reference_polyline :
  decodePolyline referencePolyline
    = [(38.5, -120.2); (40.7, -120.95); (43.252, -126.453)]%float.
Proof.
  vm_compute. reflexivity.
Qed.

(** C6, as stated, fails: on an input that holds a latitude and no
    longitude (the latitude chunk uses the string up) a pair is pushed all
    the same, with longitude 0; so is one on an input cut inside the
    latitude. *)
Lemma latitude_only_input_emits_pair :
  readChunk latitudeOnly 0 0 = (7700000, [])
  /\ decodePolyline latitudeOnly = [(38.5, 0)]%float
  /\ decodePolyline cutLatitude = [(0.16144, 0)]%float.
Proof.
  repeat split; vm_compute; reflexivity.
Qed.

End PolylineSpec.

(* ===================================================================== *)
(** * Facts of the exact projection *)
(* ===================================================================== *)

Module ExactProjectionFacts.

Import ExactProjection.
Local Open Scope Q_scope.

(** ** [Math.min] and [Math.max] *)














(** The image of the greatest element under a monotone map is the greatest
    element of the image; likewise for the least, and with the roles
    exchanged for an antitone map. *)
Section Images.

Variable f : Q -> Q.
Variable l : list Q.
Hypothesis nonempty : l <> [].






End Images.

(** ** The frame: spans, inner size, scale *)


Lemma exact_orOne_zero (v : Q) : v == 0 -> orOne v = 1.
Proof.
  intros H. unfold orOne. rewrite (Qeq_eq_bool _ _ H). reflexivity.
Qed.

Lemma orOne_nonzero (v : Q) : ~ v == 0 -> orOne v = v.
Proof.
  intros H. unfold orOne. destruct (Qeq_bool v 0) eqn:E; [| reflexivity].
  contradiction H. apply Qeq_bool_eq, E.
Qed.

Lemma orOne_not_zero (v : Q) : ~ orOne v == 0.
Proof.
  unfold orOne. destruct (Qeq_bool v 0) eqn:E.
  - intros H. discriminate H.
  - apply Qeq_bool_neq, E.
Qed.


Section Frame.

Variable points : list (Q * Q).
Variables width height padding : Q.










End Frame.

(** ** Spans of the input and of the projection *)



Section Spans.

Variable points : list (Q * Q).
Variables width height padding : Q.
Hypothesis nonempty : points <> [].

Let s := scale points width height padding.









End Spans.




End ExactProjectionFacts.

(* ===================================================================== *)
(** * The order of binary64 numbers *)
(* ===================================================================== *)

(** [<=] on the floats that are not NaN is a total preorder: a float is
    ranked by its class (negative infinity, negative, zero, positive,
    positive infinity) and, within the finite classes, by exponent and
    mantissa, which is the order [SFcompare] decides. *)

Module FloatOrder.

Import Binary64.
Local Open Scope Z_scope.

Definition key (f : spec_float) : Z * Z * Z :=
  match f with
  | S754_infinity true => (-2, 0, 0)
  | S754_finite true m e => (-1, - e, - Zpos m)
  | S754_zero _ | S754_nan => (0, 0, 0)
  | S754_finite false m e => (1, e, Zpos m)
  | S754_infinity false => (2, 0, 0)
  end.

Definition below (a b : Z * Z * Z) : Prop :=
  let '(r1, e1, m1) := a in
  let '(r2, e2, m2) := b in
  r1 < r2 \/ (r1 = r2 /\ (e1 < e2 \/ (e1 = e2 /\ m1 <= m2))).

Lemma compare_cont_spec (m1 m2 : positive) :
  CompareSpec (Zpos m1 = Zpos m2) (Zpos m1 < Zpos m2) (Zpos m2 < Zpos m1)
              (PosDef.Pos.compare_cont Eq m1 m2).
Proof.
  change (PosDef.Pos.compare_cont Eq m1 m2) with (Pos.compare m1 m2).
  destruct (Pos.compare_spec m1 m2); constructor; subst; lia.
Qed.

Ltac decide_order :=
  try solve [split; [intros _; lia | reflexivity]];
  try solve [split; [discriminate | intros; lia]].

Lemma SFleb_below (x y : spec_float) :
  x <> S754_nan -> y <> S754_nan ->
  (SFleb x y = true <-> below (key x) (key y)).
Proof.
  intros Hx Hy. unfold SFleb, SFcompare.
  destruct x as [sx | sx | | sx mx ex]; try congruence;
  destruct y as [sy | sy | | sy my ey]; try congruence;
  repeat match goal with s : bool |- _ => destruct s end;
  cbn [key below]; decide_order;
  destruct (Z.compare_spec ex ey); decide_order;
  destruct (compare_cont_spec mx my); cbn [CompOpp]; decide_order.
Qed.

Lemma SFltb_below (x y : spec_float) :
  x <> S754_nan -> y <> S754_nan ->
  (SFltb x y = true <-> ~ below (key y) (key x)).
Proof.
  intros Hx Hy. unfold SFltb, SFcompare.
  destruct x as [sx | sx | | sx mx ex]; try congruence;
  destruct y as [sy | sy | | sy my ey]; try congruence;
  repeat match goal with s : bool |- _ => destruct s end;
  cbn [key below]; decide_order;
  destruct (Z.compare_spec ex ey); decide_order;
  destruct (compare_cont_spec mx my); cbn [CompOpp]; decide_order.
Qed.

Lemma below_refl k : below k k.
Proof. destruct k as [[r e] m]. cbn. lia. Qed.

Lemma below_trans a b c : below a b -> below b c -> below a c.
Proof.
  destruct a as [[r1 e1] m1], b as [[r2 e2] m2], c as [[r3 e3] m3]. cbn. lia.
Qed.

Lemma below_total a b : below a b \/ below b a.
Proof.
  destruct a as [[r1 e1] m1], b as [[r2 e2] m2]. cbn. lia.
Qed.

(** ** NaN *)

Lemma isNaN_spec (x : float) : isNaN x = true <-> Prim2SF x = S754_nan.
Proof.
  unfold isNaN. rewrite eqb_spec. unfold SFeqb, SFcompare.
  destruct (Prim2SF x) as [s | s | | s m e].
  - split; discriminate.
  - destruct s; split; discriminate.
  - split; reflexivity.
  - rewrite Z.compare_refl.
    change (PosDef.Pos.compare_cont Eq m m) with (Pos.compare m m).
    rewrite Pos.compare_refl. destruct s; split; discriminate.
Qed.

Lemma number_spec (x : float) : isNaN x = false <-> Prim2SF x <> S754_nan.
Proof.
  pose proof (isNaN_spec x) as H. destruct (isNaN x).
  - split; [discriminate | intros H'; contradiction H'; tauto].
  - split; [| reflexivity]. intros _ E. apply H in E. discriminate.
Qed.

(** There is one NaN. *)
Lemma isNaN_nan (x : float) : isNaN x = true -> x = nan.
Proof.
  intros H. apply isNaN_spec in H.
  rewrite <- (SF2Prim_Prim2SF x), H. reflexivity.
Qed.

Lemma leb_number_l (x y : float) : (x <=? y)%float = true -> isNaN x = false.
Proof.
  rewrite leb_spec. intros H. apply number_spec. intros E. rewrite E in H. discriminate.
Qed.

Lemma leb_number_r (x y : float) : (x <=? y)%float = true -> isNaN y = false.
Proof.
  rewrite leb_spec. intros H. apply number_spec. intros E. rewrite E in H.
  destruct (Prim2SF x); discriminate.
Qed.

(** ** The preorder *)

Lemma leb_refl (x : float) : isNaN x = false -> (x <=? x)%float = true.
Proof.
  intros H. apply number_spec in H. rewrite leb_spec.
  apply SFleb_below; try assumption. apply below_refl.
Qed.

Lemma leb_trans (x y z : float) :
  (x <=? y)%float = true -> (y <=? z)%float = true -> (x <=? z)%float = true.
Proof.
  intros Hxy Hyz.
  pose proof (proj1 (number_spec _) (leb_number_l _ _ Hxy)) as Nx.
  pose proof (proj1 (number_spec _) (leb_number_l _ _ Hyz)) as Ny.
  pose proof (proj1 (number_spec _) (leb_number_r _ _ Hyz)) as Nz.
  rewrite leb_spec in *.
  apply SFleb_below in Hxy; try assumption.
  apply SFleb_below in Hyz; try assumption.
  apply SFleb_below; try assumption.
  eapply below_trans; eassumption.
Qed.

Lemma ltb_leb (x y : float) : (x <? y)%float = true -> (x <=? y)%float = true.
Proof.
  rewrite ltb_spec, leb_spec. unfold SFltb, SFleb.
  destruct (SFcompare (Prim2SF x) (Prim2SF y)) as [[| |] |]; try discriminate.
  reflexivity.
Qed.

Lemma not_ltb_leb (x y : float) :
  isNaN x = false -> isNaN y = false ->
  (x <? y)%float = false -> (y <=? x)%float = true.
Proof.
  intros Nx Ny H. apply number_spec in Nx. apply number_spec in Ny.
  rewrite ltb_spec in H. rewrite leb_spec.
  apply SFleb_below; try assumption.
  pose proof (SFltb_below _ _ Nx Ny) as L. rewrite H in L.
  assert (NN : ~ ~ below (key (Prim2SF y)) (key (Prim2SF x))).
  { intros N. apply L in N. discriminate. }
  destruct (key (Prim2SF y)) as [[r1 e1] m1], (key (Prim2SF x)) as [[r2 e2] m2].
  cbn in *. lia.
Qed.

(** ** Zeros and infinities *)

Lemma isNegZero_spec (x : float) : Projection.isNegZero x = true -> Prim2SF x = S754_zero true.
Proof.
  unfold Projection.isNegZero. rewrite classify_spec.
  unfold SF64classify, SFclassify.
  destruct (Prim2SF x) as [[|] | [|] | | [|] m e]; try discriminate; try reflexivity;
    destruct (Z.pos (digits2_pos m) =? prec); discriminate.
Qed.

Lemma isPosZero_spec (x : float) : Projection.isPosZero x = true -> Prim2SF x = S754_zero false.
Proof.
  unfold Projection.isPosZero. rewrite classify_spec.
  unfold SF64classify, SFclassify.
  destruct (Prim2SF x) as [[|] | [|] | | [|] m e]; try discriminate; try reflexivity;
    destruct (Z.pos (digits2_pos m) =? prec); discriminate.
Qed.

Lemma zeros_leb (x y : float) (s t : bool) :
  Prim2SF x = S754_zero s -> Prim2SF y = S754_zero t -> (x <=? y)%float = true.
Proof.
  intros Hx Hy. rewrite leb_spec, Hx, Hy. reflexivity.
Qed.

Lemma not_below_infinity (x : float) :
  isNaN x = false -> (x <? infinity)%float = false -> x = infinity.
Proof.
  intros Nx H. apply number_spec in Nx. rewrite ltb_spec in H.
  change (Prim2SF infinity) with (S754_infinity false) in H.
  rewrite <- (SF2Prim_Prim2SF x).
  destruct (Prim2SF x) as [[|] | [|] | | [|] m e]; try discriminate; try congruence.
  reflexivity.
Qed.

Lemma not_above_neg_infinity (x : float) :
  isNaN x = false -> (neg_infinity <? x)%float = false -> x = neg_infinity.
Proof.
  intros Nx H. apply number_spec in Nx. rewrite ltb_spec in H.
  change (Prim2SF neg_infinity) with (S754_infinity true) in H.
  rewrite <- (SF2Prim_Prim2SF x).
  destruct (Prim2SF x) as [[|] | [|] | | [|] m e]; try discriminate; try congruence.
  reflexivity.
Qed.

End FloatOrder.

(* ===================================================================== *)
(** * [Math.min] and [Math.max] on binary64 numbers *)
(* ===================================================================== *)

Module MinMaxFacts.

Import Binary64 Projection FloatOrder.
Local Open Scope float_scope.

(** No NaN among the numbers of a list. *)
Definition numbers (l : list float) : Prop := forall x, In x l -> isNaN x = false.

(** ** One step *)

Lemma lower_cases (a b : float) : lower a b = a \/ lower a b = b.
Proof.
  unfold lower. destruct (isNaN b) eqn:Nb.
  - right. symmetry. apply isNaN_nan, Nb.
  - destruct (isNaN a); [left; reflexivity |].
    destruct (isNegZero b && isPosZero a); [right; reflexivity |].
    destruct (b <? a); auto.
Qed.

Lemma higher_cases (a b : float) : higher a b = a \/ higher a b = b.
Proof.
  unfold higher. destruct (isNaN b) eqn:Nb.
  - right. symmetry. apply isNaN_nan, Nb.
  - destruct (isNaN a); [left; reflexivity |].
    destruct (isPosZero b && isNegZero a); [right; reflexivity |].
    destruct (a <? b); auto.
Qed.

Lemma lower_number (a b : float) :
  isNaN a = false -> isNaN b = false -> isNaN (lower a b) = false.
Proof.
  intros Na Nb. destruct (lower_cases a b) as [-> | ->]; assumption.
Qed.

Lemma higher_number (a b : float) :
  isNaN a = false -> isNaN b = false -> isNaN (higher a b) = false.
Proof.
  intros Na Nb. destruct (higher_cases a b) as [-> | ->]; assumption.
Qed.

Lemma lower_le (a b : float) :
  isNaN a = false -> isNaN b = false ->
  (lower a b <=? a) = true /\ (lower a b <=? b) = true.
Proof.
  intros Na Nb. unfold lower. rewrite Na, Nb.
  destruct (isNegZero b && isPosZero a) eqn:Z.
  - apply andb_true_iff in Z. destruct Z as [Zb Za].
    split; [| apply leb_refl, Nb].
    eapply zeros_leb; [apply isNegZero_spec, Zb | apply isPosZero_spec, Za].
  - destruct (b <? a) eqn:L.
    + split; [apply ltb_leb, L | apply leb_refl, Nb].
    + split; [apply leb_refl, Na | apply not_ltb_leb; assumption].
Qed.

Lemma higher_ge (a b : float) :
  isNaN a = false -> isNaN b = false ->
  (a <=? higher a b) = true /\ (b <=? higher a b) = true.
Proof.
  intros Na Nb. unfold higher. rewrite Na, Nb.
  destruct (isPosZero b && isNegZero a) eqn:Z.
  - apply andb_true_iff in Z. destruct Z as [Zb Za].
    split; [| apply leb_refl, Nb].
    eapply zeros_leb; [apply isNegZero_spec, Za | apply isPosZero_spec, Zb].
  - destruct (a <? b) eqn:L.
    + split; [apply ltb_leb, L | apply leb_refl, Nb].
    + split; [apply leb_refl, Na | apply not_ltb_leb; assumption].
Qed.

(** The first step leaves the first number. *)
Lemma lower_infinity (x : float) : lower infinity x = x.
Proof.
  unfold lower. destruct (isNaN x) eqn:Nx.
  - symmetry. apply isNaN_nan, Nx.
  - change (isNaN infinity) with false.
    change (isPosZero infinity) with false. rewrite andb_false_r.
    destruct (x <? infinity) eqn:L; [reflexivity |].
    symmetry. apply not_below_infinity; assumption.
Qed.

Lemma higher_neg_infinity (x : float) : higher neg_infinity x = x.
Proof.
  unfold higher. destruct (isNaN x) eqn:Nx.
  - symmetry. apply isNaN_nan, Nx.
  - change (isNaN neg_infinity) with false.
    change (isNegZero neg_infinity) with false. rewrite andb_false_r.
    destruct (neg_infinity <? x) eqn:L; [reflexivity |].
    symmetry. apply not_above_neg_infinity; assumption.
Qed.

(** ** The folds *)

Lemma MathMin_cons (x : float) (r : list float) :
  MathMin (x :: r) = fold_left lower r x.
Proof.
  unfold MathMin. cbn [fold_left]. rewrite lower_infinity. reflexivity.
Qed.

Lemma MathMax_cons (x : float) (r : list float) :
  MathMax (x :: r) = fold_left higher r x.
Proof.
  unfold MathMax. cbn [fold_left]. rewrite higher_neg_infinity. reflexivity.
Qed.

Lemma fold_lower_in (r : list float) (a : float) :
  fold_left lower r a = a \/ In (fold_left lower r a) r.
Proof.
  revert a. induction r as [| y r IH]; intros a; cbn [fold_left In].
  - left; reflexivity.
  - destruct (IH (lower a y)) as [E | Hin]; [| auto].
    rewrite E. destruct (lower_cases a y) as [-> | ->]; auto.
Qed.

Lemma fold_higher_in (r : list float) (a : float) :
  fold_left higher r a = a \/ In (fold_left higher r a) r.
Proof.
  revert a. induction r as [| y r IH]; intros a; cbn [fold_left In].
  - left; reflexivity.
  - destruct (IH (higher a y)) as [E | Hin]; [| auto].
    rewrite E. destruct (higher_cases a y) as [-> | ->]; auto.
Qed.

Lemma numbers_cons (y : float) (r : list float) :
  numbers (y :: r) -> isNaN y = false /\ numbers r.
Proof.
  intros H. split; [apply H; left; reflexivity |].
  intros x Hx. apply H. right. exact Hx.
Qed.

Lemma fold_lower_le (r : list float) (a : float) :
  isNaN a = false -> numbers r ->
  (fold_left lower r a <=? a) = true
  /\ forall x, In x r -> (fold_left lower r a <=? x) = true.
Proof.
  revert a. induction r as [| y r IH]; intros a Na Nr; cbn [fold_left].
  - split; [apply leb_refl, Na | intros x []].
  - destruct (numbers_cons _ _ Nr) as [Ny Nr'].
    destruct (lower_le a y Na Ny) as [La Ly].
    destruct (IH (lower a y) (lower_number a y Na Ny) Nr') as [Hinit Hall].
    split; [eapply leb_trans; eassumption |].
    intros x [<- | Hx]; [eapply leb_trans; eassumption | apply Hall, Hx].
Qed.

Lemma fold_higher_ge (r : list float) (a : float) :
  isNaN a = false -> numbers r ->
  (a <=? fold_left higher r a) = true
  /\ forall x, In x r -> (x <=? fold_left higher r a) = true.
Proof.
  revert a. induction r as [| y r IH]; intros a Na Nr; cbn [fold_left].
  - split; [apply leb_refl, Na | intros x []].
  - destruct (numbers_cons _ _ Nr) as [Ny Nr'].
    destruct (higher_ge a y Na Ny) as [La Ly].
    destruct (IH (higher a y) (higher_number a y Na Ny) Nr') as [Hinit Hall].
    split; [eapply leb_trans; eassumption |].
    intros x [<- | Hx]; [eapply leb_trans; eassumption | apply Hall, Hx].
Qed.

(** [Math.min] of numbers is below each of them, [Math.max] above. *)
Lemma MathMin_le (l : list float) (x : float) :
  numbers l -> In x l -> (MathMin l <=? x) = true.
Proof.
  intros Nl Hin. destruct l as [| a r]; [destruct Hin |].
  rewrite MathMin_cons. destruct (numbers_cons _ _ Nl) as [Na Nr].
  destruct (fold_lower_le r a Na Nr) as [Hinit Hall].
  destruct Hin as [<- | Hin]; [exact Hinit | apply Hall, Hin].
Qed.

Lemma MathMax_ge (l : list float) (x : float) :
  numbers l -> In x l -> (x <=? MathMax l) = true.
Proof.
  intros Nl Hin. destruct l as [| a r]; [destruct Hin |].
  rewrite MathMax_cons. destruct (numbers_cons _ _ Nl) as [Na Nr].
  destruct (fold_higher_ge r a Na Nr) as [Hinit Hall].
  destruct Hin as [<- | Hin]; [exact Hinit | apply Hall, Hin].
Qed.

(** [Math.min] and [Math.max] of a list that has an element are among
    its elements. *)
Lemma MathMin_In (l : list float) : l <> [] -> In (MathMin l) l.
Proof.
  destruct l as [| a r]; [intros H; contradiction H; reflexivity |].
  intros _. rewrite MathMin_cons.
  destruct (fold_lower_in r a) as [-> | H]; [left; reflexivity | right; exact H].
Qed.

Lemma MathMax_In (l : list float) : l <> [] -> In (MathMax l) l.
Proof.
  destruct l as [| a r]; [intros H; contradiction H; reflexivity |].
  intros _. rewrite MathMax_cons.
  destruct (fold_higher_in r a) as [-> | H]; [left; reflexivity | right; exact H].
Qed.

End MinMaxFacts.

(* ===================================================================== *)
(** * Properties of [buildSvgPath] *)
(* ===================================================================== *)

Module ProjectionSpec.

Import Binary64 Projection.
Local Open Scope float_scope.

(** ** Routes of the examples, as [[lat, lng]] pairs *)

(** A route of three points. *)
Definition sampleRoute : list (float * float) := [(0, 0); (1, 2); (-1, 0.5)].




(** ** A run compared with exact arithmetic *)













Lemma projected_long (points : list (float * float)) (width height padding : float) :
  (2 <= List.length points)%nat ->
  projected points width height padding = mapped points width height padding.
Proof.
  intros H. unfold projected.
  replace (List.length points <? 2)%nat with false; [reflexivity |].
  symmetry. apply Nat.ltb_ge, H.
Qed.

(** ** [v || 1] *)

Lemma orOne_truthy (v : float) : falsy (orOne v) = false.
Proof.
  unfold orOne. destruct (falsy v) eqn:E; [reflexivity | exact E].
Qed.

Lemma falsy_false (v : float) : falsy v = false -> (v =? 0) = false /\ isNaN v = false.
Proof.
  unfold falsy. intros H. apply orb_false_iff in H. exact H.
Qed.

Lemma orOne_zero (v : float) : (v =? 0) = true -> orOne v = 1.
Proof.
  intros H. unfold orOne, falsy. rewrite H. reflexivity.
Qed.

Lemma orOne_nan (v : float) : isNaN v = true -> orOne v = 1.
Proof.
  intros H. unfold orOne, falsy. rewrite H, orb_true_r. reflexivity.
Qed.

(** ** The claims *)

Local Open Scope Q_scope.







Local Close Scope Q_scope.

(** C9: with fewer than two points the result is the empty path (and no
    bounding box); and for every input the two divisors of the scale, [dx]
    and [dy], are neither zero nor NaN, a zero span having been replaced
    by 1 (the only other division is by the constant 2). *)
Theorem short_input_empty_path_and_divisors_nonzero
    (show : float -> string) (points : list (float * float))
    (width height padding : float) :
  ((List.length points < 2)%nat ->
     buildSvgPath show points width height padding = {| d := ""; bbox := None |}
     /\ projected points width height padding = [])
  /\ (dx points =? 0) = false
  /\ (dy points =? 0) = false
  /\ ((maxX points - minX points =? 0) = true -> dx points = 1)
  /\ ((maxY points - minY points =? 0) = true -> dy points = 1)
  /\ isNaN (dx points) = false
  /\ isNaN (dy points) = false.
Proof.
  destruct (falsy_false _ (orOne_truthy (maxX points - minX points))) as [Zx Nx].
  destruct (falsy_false _ (orOne_truthy (maxY points - minY points))) as [Zy Ny].
  split; [| repeat split].
  - intros Hlen. apply Nat.ltb_lt in Hlen.
    unfold buildSvgPath, projected. rewrite Hlen. split; reflexivity.
  - exact Zx.
  - exact Zy.
  - apply orOne_zero.
  - apply orOne_zero.
  - exact Nx.
  - exact Ny.
Qed.

(** A single point: nothing drawable, both spans zero, both divisors 1. *)
Lemma short_input_empty_path_and_divisors_nonzero_witness :
  buildSvgPath printSafeInteger [(0.5, 3)] 640 360 20 = {| d := ""; bbox := None |}
  /\ dx [(0.5, 3)] = 1
  /\ dy [(0.5, 3)] = 1.
Proof.
  destruct (short_input_empty_path_and_divisors_nonzero
              printSafeInteger [(0.5, 3)] 640 360 20)
    as [Hshort [_ [_ [Hdx [Hdy _]]]]].
  split; [| split].
  - apply Hshort. simpl. lia.
  - apply Hdx. reflexivity.
  - apply Hdy. reflexivity.
Defined.

End ProjectionSpec.

(* ===================================================================== *)
(** * Further properties of [getAccessToken] *)
(* ===================================================================== *)

Module TokenBrokerMore.

Import TokenBroker TokenBrokerSpec.
Local Open Scope string_scope.
Local Open Scope Z_scope.

(** A token endpoint that answers 200 with a token valid for six hours
    past [epochMs]. *)
Definition grantedData : TokenData :=
  {| access_token := "fresh"; expires_at := 1700021600 |}.

Definition grantedResponse : Response :=
  {| status := 200; text := "{...}"; json := Some grantedData |}.

Definition unauthorizedResponse : Response :=
  {| status := 401; text := "Unauthorized"; json := None |}.

(** X1: a token obtained by a refresh is reused.  With the credentials
    present and no usable cache entry, a 2xx answer carrying a token makes
    the call return that token after exactly one request; a later call, at
    any time more than 30 seconds before the token's expiry, returns the
    same token and changes nothing (no request is sent). *)
Theorem refreshed_token_is_reused upstream env dateNow dateLater w res data :
  truthy (STRAVA_ACCESS_TOKEN env) = false ->
  truthy (STRAVA_CLIENT_ID env) = true ->
  truthy (STRAVA_CLIENT_SECRET env) = true ->
  truthy (STRAVA_REFRESH_TOKEN env) = true ->
  stillValid (cachedAccessToken w) (dateNow / 1000) = false ->
  upstream (refreshRequest env) = Responded res ->
  ok res = true ->
  json res = Some data ->
  expires_at data - 30 > dateLater / 1000 ->
  let first := getAccessToken upstream env dateNow w in
  fst first = Return (access_token data)
  /\ requests (snd first) = (requests w ++ [refreshRequest env])%list
  /\ getAccessToken upstream env dateLater (snd first)
     = (Return (access_token data), snd first).
Proof.
  intros Hs Hi Hc Hr Hv Hu Hok Hj Hlater. cbv zeta.
  rewrite (with_credentials upstream env dateNow w Hs Hi Hc Hr).
  rewrite Hv. cbv zeta. rewrite Hu, Hok, Hj. simpl.
  split; [reflexivity |]. split; [reflexivity |].
  rewrite with_credentials by assumption. simpl.
  replace (dateLater / 1000 <? expires_at data - 30) with true
    by (symmetry; apply Z.ltb_lt; lia).
  reflexivity.
Qed.

Lemma refreshed_token_is_reused_witness :
  let first :=
    getAccessToken upstreamOk envFull epochMs (worldWith (Some staleEntry)) in
  fst first = Return "fresh"
  /\ requests (snd first) = [refreshRequest envFull]
  /\ getAccessToken upstreamOk envFull (epochMs + 3600000) (snd first)
     = (Return "fresh", snd first).
Proof.
  apply (refreshed_token_is_reused upstreamOk envFull epochMs (epochMs + 3600000)
           (worldWith (Some staleEntry)) grantedResponse grantedData);
    reflexivity.
Defined.

(** X2: one call sends at most one request, the refresh request, and only
    adds it at the end of the log; and it never empties the cache slot:
    the slot is left as it was or holds an entry. *)
Theorem one_request_and_slot_never_emptied upstream env dateNow w :
  let after := snd (getAccessToken upstream env dateNow w) in
  (requests after = requests w
   \/ requests after = (requests w ++ [refreshRequest env])%list)
  /\ (cachedAccessToken after = cachedAccessToken w
      \/ exists entry, cachedAccessToken after = Some entry).
Proof.
  cbv zeta.
  destruct (truthy (STRAVA_ACCESS_TOKEN env)) eqn:Hs.
  { rewrite static_token_returned by assumption. simpl. auto. }
  destruct (truthy (STRAVA_CLIENT_ID env)) eqn:Hi;
    [| rewrite missing_credentials_throw by auto; simpl; auto ].
  destruct (truthy (STRAVA_CLIENT_SECRET env)) eqn:Hc;
    [| rewrite missing_credentials_throw by auto; simpl; auto ].
  destruct (truthy (STRAVA_REFRESH_TOKEN env)) eqn:Hr;
    [| rewrite missing_credentials_throw by auto; simpl; auto ].
  rewrite with_credentials by assumption.
  destruct (stillValid (cachedAccessToken w) (dateNow / 1000)); [simpl; auto |].
  cbv zeta.
  destruct (upstream (refreshRequest env)) as [res |]; [| simpl; auto ].
  destruct (ok res); [| simpl; auto ].
  destruct (json res) as [data |]; simpl; eauto.
Qed.

(** X3: when a refresh is due (credentials present, no static token, no
    usable cache entry) and the token endpoint answers with a non-2xx
    status, the call throws an error whose message is
    "Strava token refresh failed (<status>): <body text>", having sent the
    one refresh request and left the cache slot alone. *)
Theorem refused_refresh_reports_status_and_body upstream env dateNow w res :
  truthy (STRAVA_ACCESS_TOKEN env) = false ->
  truthy (STRAVA_CLIENT_ID env) = true ->
  truthy (STRAVA_CLIENT_SECRET env) = true ->
  truthy (STRAVA_REFRESH_TOKEN env) = true ->
  stillValid (cachedAccessToken w) (dateNow / 1000) = false ->
  upstream (refreshRequest env) = Responded res ->
  ok res = false ->
  getAccessToken upstream env dateNow w
  = (Throw (Error ("Strava token refresh failed (" ++ showStatus (status res)
                     ++ "): " ++ text res)),
     {| cachedAccessToken := cachedAccessToken w;
        requests := (requests w ++ [refreshRequest env])%list |}).
Proof.
  intros Hs Hi Hc Hr Hv Hu Hok.
  rewrite with_credentials by assumption.
  rewrite Hv. cbv zeta. rewrite Hu, Hok. reflexivity.
Qed.

Lemma refused_refresh_reports_status_and_body_witness :
  getAccessToken upstreamUnauthorized envFull epochMs (worldWith (Some staleEntry))
  = (Throw (Error "Strava token refresh failed (401): Unauthorized"),
     {| cachedAccessToken := Some staleEntry;
        requests := [refreshRequest envFull] |}).
Proof.
  apply (refused_refresh_reports_status_and_body upstreamUnauthorized envFull epochMs
           (worldWith (Some staleEntry)) unauthorizedResponse);
    reflexivity.
Defined.

End TokenBrokerMore.

(* ===================================================================== *)
(** * Properties of the route handler [GET] *)
(* ===================================================================== *)

Module RouteHandlerSpec.

Import TokenBroker TokenBrokerSpec Binary64 RouteHandler.
Local Open Scope string_scope.
Local Open Scope Z_scope.

(** *** Concrete data for the examples *)

Definition longRun : StravaRoute :=
  {| route_id := 3141592%float;
     route_name := "Sunday long run";
     route_distance := 21097.3%float;
     route_elevation_gain := 180%float;
     route_map := Some {| summary_polyline := Some "_p~iF~ps|U_ulLnnqC_mqNvxq`@" |} |}.

Definition routeFound : RouteRequest -> RouteFetchOutcome :=
  fun _ => RouteResponded
             {| routeStatus := 200; routeText := "{...}"; routeJson := Some longRun |}.

Definition notFoundResponse : RouteResponse :=
  {| routeStatus := 404; routeText := "Record Not Found"; routeJson := None |}.

Definition notModifiedResponse : RouteResponse :=
  {| routeStatus := 304; routeText := ""; routeJson := None |}.

Definition routeAnswers (res : RouteResponse) : RouteRequest -> RouteFetchOutcome :=
  fun _ => RouteResponded res.

Definition runtimeText : Thrown -> string := fun _ => "runtime error".

Definition idle (c : option CachedToken) : Server :=
  {| tokenWorld := worldWith c; routeRequests := [] |}.

(** *** Shared lemmas *)

Lemma withWorld_same (s : Server) : withWorld s (tokenWorld s) = s.
Proof. destruct s; reflexivity. Qed.

Lemma orElse_truthy (a b : option string) :
  truthy (orElse a b) = truthy a || truthy b.
Proof.
  unfold orElse. destruct (truthy a) eqn:E; [rewrite E |]; reflexivity.
Qed.

(** Once the route id is there and the token is in hand, the handler is
    the route fetch and its three outcomes. *)
Lemma with_token tokenUp routeUp message show env defaultRouteId routeIdParam dateNow s
      tok w :
  truthy (orElse routeIdParam defaultRouteId) = true ->
  getAccessToken tokenUp env dateNow (tokenWorld s) = (Return tok, w) ->
  GET tokenUp routeUp message show env defaultRouteId routeIdParam dateNow s
  = let req := routeRequest (str (orElse routeIdParam defaultRouteId)) tok in
    let s' := sendRoute (withWorld s w) req in
    match routeUp req with
    | RouteRejected =>
        ({| httpStatus := 500;
            httpBody := ErrorBody (message RouteFetchRejected) None |}, s')
    | RouteResponded res =>
        if routeOk res then
          match routeJson res with
          | None =>
              ({| httpStatus := 500;
                  httpBody := ErrorBody (message RouteJsonSyntaxError) None |}, s')
          | Some route => ({| httpStatus := 200; httpBody := routeBody show route |}, s')
          end
        else if bodyStatus (routeStatus res) then
          ({| httpStatus := routeStatus res;
              httpBody := ErrorBody (routeFetchFailedMessage res)
                                    (Some (routeText res)) |}, s')
        else
          ({| httpStatus := 500;
              httpBody := ErrorBody (message ResponseInitError) None |}, s')
    end.
Proof.
  intros Hid Htok. unfold GET, tryGET. rewrite Hid, Htok. simpl negb. cbv iota zeta.
  destruct (routeUp _) as [res |]; [| reflexivity].
  destruct (routeOk res); simpl negb; cbv iota.
  - destruct (routeJson res); reflexivity.
  - unfold nextResponseJson. destruct (bodyStatus (routeStatus res)); reflexivity.
Qed.

(** When [getAccessToken] throws, the handler answers 500 with the
    message, and the route endpoint is not contacted. *)
Lemma token_failure tokenUp routeUp message show env defaultRouteId routeIdParam dateNow s
      e w :
  truthy (orElse routeIdParam defaultRouteId) = true ->
  getAccessToken tokenUp env dateNow (tokenWorld s) = (Throw e, w) ->
  GET tokenUp routeUp message show env defaultRouteId routeIdParam dateNow s
  = ({| httpStatus := 500;
        httpBody := ErrorBody (messageOf message (TokenThrew e)) None |},
     withWorld s w).
Proof.
  intros Hid Htok. unfold GET, tryGET. rewrite Hid, Htok. reflexivity.
Qed.

(** *** The properties *)

(** X4: a request with no [routeId] parameter (absent or empty) and no
    default route id configured is answered 400 with the "Missing routeId"
    message before anything else happens: no token is looked up, no request
    is sent, whatever the credentials are. *)
Theorem missing_route_id_is_400
    tokenUp routeUp message show env defaultRouteId routeIdParam dateNow s :
  truthy routeIdParam = false ->
  truthy defaultRouteId = false ->
  GET tokenUp routeUp message show env defaultRouteId routeIdParam dateNow s
  = ({| httpStatus := 400;
        httpBody := ErrorBody
          "Missing routeId. Provide ?routeId=... or STRAVA_DEFAULT_ROUTE_ID." None |},
     s).
Proof.
  intros Hp Hd. unfold GET, tryGET.
  rewrite orElse_truthy, Hp, Hd. reflexivity.
Qed.

Lemma missing_route_id_is_400_witness :
  GET upstreamOk routeFound runtimeText printSafeInteger envNoClientId None (Some "") epochMs (idle None)
  = ({| httpStatus := 400;
        httpBody := ErrorBody
          "Missing routeId. Provide ?routeId=... or STRAVA_DEFAULT_ROUTE_ID." None |},
     idle None).
Proof.
  apply (missing_route_id_is_400 upstreamOk routeFound runtimeText printSafeInteger envNoClientId
           None (Some "") epochMs (idle None));
    reflexivity.
Defined.

(** X5: with a route id but neither a static token nor the full set of
    credentials, the handler answers 500 with the "Missing Strava env vars"
    message and does nothing else: no request to either endpoint, cache
    untouched. *)
Theorem missing_credentials_is_500
    tokenUp routeUp message show env defaultRouteId routeIdParam dateNow s :
  truthy routeIdParam = true \/ truthy defaultRouteId = true ->
  truthy (STRAVA_ACCESS_TOKEN env) = false ->
  truthy (STRAVA_CLIENT_ID env) = false
  \/ truthy (STRAVA_CLIENT_SECRET env) = false
  \/ truthy (STRAVA_REFRESH_TOKEN env) = false ->
  GET tokenUp routeUp message show env defaultRouteId routeIdParam dateNow s
  = ({| httpStatus := 500; httpBody := ErrorBody missingEnvMessage None |}, s).
Proof.
  intros Hid Hs Hm.
  rewrite (token_failure tokenUp routeUp message show env defaultRouteId routeIdParam
             dateNow s (Error missingEnvMessage) (tokenWorld s)).
  - rewrite withWorld_same. reflexivity.
  - rewrite orElse_truthy. destruct Hid as [-> | ->];
      [reflexivity | apply orb_true_r].
  - apply missing_credentials_throw; assumption.
Qed.

Lemma missing_credentials_is_500_witness :
  GET upstreamOk routeFound runtimeText printSafeInteger envNoClientId None (Some "3141592") epochMs
      (idle None)
  = ({| httpStatus := 500; httpBody := ErrorBody missingEnvMessage None |}, idle None).
Proof.
  apply (missing_credentials_is_500 upstreamOk routeFound runtimeText printSafeInteger envNoClientId
           None (Some "3141592") epochMs (idle None)
           (or_introl eq_refl) eq_refl (or_introl eq_refl)).
Defined.

(** X6: a refresh refused by the token endpoint (non-2xx) is answered 500,
    not with the token endpoint's status; the body's error is
    "Strava token refresh failed (<status>): <body text>" and the route
    endpoint is never contacted. *)
Theorem refused_refresh_is_500
    tokenUp routeUp message show env defaultRouteId routeIdParam dateNow s res :
  truthy routeIdParam = true \/ truthy defaultRouteId = true ->
  truthy (STRAVA_ACCESS_TOKEN env) = false ->
  truthy (STRAVA_CLIENT_ID env) = true ->
  truthy (STRAVA_CLIENT_SECRET env) = true ->
  truthy (STRAVA_REFRESH_TOKEN env) = true ->
  stillValid (cachedAccessToken (tokenWorld s)) (dateNow / 1000) = false ->
  tokenUp (refreshRequest env) = Responded res ->
  ok res = false ->
  let answer := GET tokenUp routeUp message show env defaultRouteId routeIdParam dateNow s in
  fst answer
  = {| httpStatus := 500;
       httpBody := ErrorBody ("Strava token refresh failed (" ++ showStatus (status res)
                                ++ "): " ++ text res) None |}
  /\ routeRequests (snd answer) = routeRequests s
  /\ cachedAccessToken (tokenWorld (snd answer)) = cachedAccessToken (tokenWorld s).
Proof.
  intros Hid Hs Hi Hc Hr Hv Hu Hok. cbv zeta.
  assert (Htok : getAccessToken tokenUp env dateNow (tokenWorld s)
                 = (Throw (Error (refreshFailedMessage res)),
                    {| cachedAccessToken := cachedAccessToken (tokenWorld s);
                       requests := (requests (tokenWorld s) ++ [refreshRequest env])%list |})).
  { rewrite with_credentials by assumption.
    rewrite Hv. cbv zeta. rewrite Hu, Hok. reflexivity. }
  assert (Hroute : truthy (orElse routeIdParam defaultRouteId) = true).
  { rewrite orElse_truthy. destruct Hid as [-> | ->];
      [reflexivity | apply orb_true_r]. }
  rewrite (token_failure _ routeUp message show _ _ _ _ _ _ _ Hroute Htok).
  simpl. split; [reflexivity |]. split; reflexivity.
Qed.

Lemma refused_refresh_is_500_witness :
  let answer :=
    GET upstreamUnauthorized routeFound runtimeText printSafeInteger envFull None (Some "3141592")
        epochMs (idle (Some staleEntry)) in
  fst answer
  = {| httpStatus := 500;
       httpBody := ErrorBody "Strava token refresh failed (401): Unauthorized" None |}
  /\ routeRequests (snd answer) = []
  /\ cachedAccessToken (tokenWorld (snd answer)) = Some staleEntry.
Proof.
  apply (refused_refresh_is_500 upstreamUnauthorized routeFound runtimeText printSafeInteger envFull
           None (Some "3141592") epochMs (idle (Some staleEntry))
           {| status := 401; text := "Unauthorized"; json := None |}
           (or_introl eq_refl));
    reflexivity.
Defined.

(** X7: once a token is in hand, a non-2xx answer of the route endpoint is
    passed on: the response carries the upstream status, the error
    "Strava route fetch failed (<status>)" and the upstream body text as
    [details], provided the status is one a response with a body may carry
    (200 to 599, not 204, 205 or 304); for any other status building the
    response throws and the answer is 500. *)
Theorem route_failure_passthrough
    tokenUp routeUp message show env defaultRouteId routeIdParam dateNow s tok w res :
  truthy (orElse routeIdParam defaultRouteId) = true ->
  getAccessToken tokenUp env dateNow (tokenWorld s) = (Return tok, w) ->
  routeUp (routeRequest (str (orElse routeIdParam defaultRouteId)) tok)
    = RouteResponded res ->
  routeOk res = false ->
  let answer := fst (GET tokenUp routeUp message show env defaultRouteId routeIdParam
                         dateNow s) in
  (bodyStatus (routeStatus res) = true ->
     answer
     = {| httpStatus := routeStatus res;
          httpBody := ErrorBody ("Strava route fetch failed ("
                                   ++ showStatus (routeStatus res) ++ ")")
                                (Some (routeText res)) |})
  /\ (bodyStatus (routeStatus res) = false -> httpStatus answer = 500).
Proof.
  intros Hid Htok Hup Hok. cbv zeta.
  rewrite (with_token _ _ _ _ _ _ _ _ _ tok w Hid Htok). cbv zeta.
  rewrite Hup, Hok.
  split; intros Hb; rewrite Hb; reflexivity.
Qed.

Lemma route_failure_passthrough_witness :
  fst (GET upstreamOk (routeAnswers notFoundResponse) runtimeText printSafeInteger envStatic None
           (Some "3141592") epochMs (idle None))
  = {| httpStatus := 404;
       httpBody := ErrorBody "Strava route fetch failed (404)"
                             (Some "Record Not Found") |}
  /\ httpStatus
       (fst (GET upstreamOk (routeAnswers notModifiedResponse) runtimeText printSafeInteger envStatic
                 None (Some "3141592") epochMs (idle None)))
     = 500.
Proof.
  split.
  - apply (proj1 (route_failure_passthrough upstreamOk (routeAnswers notFoundResponse)
                    runtimeText printSafeInteger envStatic None (Some "3141592") epochMs (idle None)
                    "static-token" (worldWith None) notFoundResponse
                    eq_refl eq_refl eq_refl eq_refl)).
    reflexivity.
  - apply (proj2 (route_failure_passthrough upstreamOk (routeAnswers notModifiedResponse)
                    runtimeText printSafeInteger envStatic None (Some "3141592") epochMs (idle None)
                    "static-token" (worldWith None) notModifiedResponse
                    eq_refl eq_refl eq_refl eq_refl)).
    reflexivity.
Defined.

(** X8: on success the handler asks for the route named by the [routeId]
    parameter when that is non-empty and by the default otherwise, with the
    token [getAccessToken] returned as bearer; it answers 200 with the
    route's id, name, distance and elevation gain unchanged, the polyline
    (or [null] when the map or the polyline is missing or empty) and the
    route's Strava URL, which ends in the id as the conversion of a number
    to a string prints it. *)
Theorem route_success
    tokenUp routeUp message show env defaultRouteId routeIdParam dateNow s tok w res route :
  truthy (orElse routeIdParam defaultRouteId) = true ->
  getAccessToken tokenUp env dateNow (tokenWorld s) = (Return tok, w) ->
  let routeId := if truthy routeIdParam then str routeIdParam else str defaultRouteId in
  let req := {| routeUrl := "https://www.strava.com/api/v3/routes/" ++ routeId;
                authorization := "Bearer " ++ tok |} in
  routeUp req = RouteResponded res ->
  routeOk res = true ->
  routeJson res = Some route ->
  GET tokenUp routeUp message show env defaultRouteId routeIdParam dateNow s
  = ({| httpStatus := 200;
        httpBody :=
          RouteBody (route_id route) (route_name route)
                    (route_distance route) (route_elevation_gain route)
                    (match route_map route with
                     | Some {| summary_polyline := Some line |} =>
                         if (line =? "")%string then None else Some line
                     | _ => None
                     end)
                    ("https://www.strava.com/routes/" ++ show (route_id route)) |},
     {| tokenWorld := w; routeRequests := (routeRequests s ++ [req])%list |}).
Proof.
  intros Hid Htok routeId req Hup Hok Hj.
  rewrite (with_token _ _ _ _ _ _ _ _ _ tok w Hid Htok). cbv zeta.
  assert (Hreq : routeRequest (str (orElse routeIdParam defaultRouteId)) tok = req).
  { unfold req, routeId, routeRequest, orElse.
    destruct (truthy routeIdParam); reflexivity. }
  rewrite Hreq, Hup, Hok, Hj.
  unfold routeBody, summaryOrNull, sendRoute, withWorld. simpl.
  destruct (route_map route) as [[[line |]] |]; simpl; try reflexivity.
  destruct (line =? "")%string; reflexivity.
Qed.

Lemma route_success_witness :
  GET upstreamOk routeFound runtimeText printSafeInteger envStatic (Some "42") (Some "3141592")
      epochMs (idle None)
  = ({| httpStatus := 200;
        httpBody :=
          RouteBody 3141592%float "Sunday long run" 21097.3%float 180%float
                    (Some "_p~iF~ps|U_ulLnnqC_mqNvxq`@")
                    "https://www.strava.com/routes/3141592" |},
     {| tokenWorld := worldWith None;
        routeRequests :=
          [ {| routeUrl := "https://www.strava.com/api/v3/routes/3141592";
               authorization := "Bearer static-token" |} ] |}).
Proof.
  apply (route_success upstreamOk routeFound runtimeText printSafeInteger envStatic (Some "42")
           (Some "3141592") epochMs (idle None) "static-token" (worldWith None)
           {| routeStatus := 200; routeText := "{...}"; routeJson := Some longRun |}
           longRun);
    reflexivity.
Defined.

(** X9: whatever the request, the environment and the two endpoints do,
    the handler's answer has a status a response with a body may carry; an
    error body never comes with a 2xx status, and a route body comes with
    status 200 only. *)
Theorem error_body_never_2xx
    tokenUp routeUp message show env defaultRouteId routeIdParam dateNow s :
  let answer := fst (GET tokenUp routeUp message show env defaultRouteId routeIdParam
                         dateNow s) in
  bodyStatus (httpStatus answer) = true
  /\ match httpBody answer with
     | ErrorBody _ _ => httpStatus answer < 200 \/ 299 < httpStatus answer
     | RouteBody _ _ _ _ _ _ => httpStatus answer = 200
     end.
Proof.
  cbv zeta. unfold GET, tryGET.
  destruct (truthy (orElse routeIdParam defaultRouteId)); simpl negb; cbv iota;
    [| simpl; split; [reflexivity | lia] ].
  destruct (getAccessToken tokenUp env dateNow (tokenWorld s)) as [[tok | e] w];
    [| simpl; split; [reflexivity | lia] ].
  cbv zeta.
  destruct (routeUp _) as [res |]; [| simpl; split; [reflexivity | lia] ].
  destruct (routeOk res) eqn:Hok; simpl negb; cbv iota.
  - destruct (routeJson res); simpl; split; try reflexivity; lia.
  - unfold nextResponseJson.
    destruct (bodyStatus (routeStatus res)) eqn:Hb; simpl.
    + split; [exact Hb |].
      unfold routeOk in Hok. apply andb_false_iff in Hok.
      destruct Hok as [H | H]; [apply Z.leb_gt in H | apply Z.leb_gt in H]; lia.
    + split; [reflexivity | lia].
Qed.

End RouteHandlerSpec.

(* ===================================================================== *)
(** * Properties of the activities handler *)
(* ===================================================================== *)

Module ActivitiesHandlerSpec.

Import TokenBroker TokenBrokerSpec ActivitiesHandler.
Local Open Scope string_scope.
Local Open Scope Z_scope.

(** The token request of a call. *)
Definition tokenPost (env : Env) : Sent :=
  TokenPost (STRAVA_CLIENT_ID env) (STRAVA_CLIENT_SECRET env) (STRAVA_REFRESH_TOKEN env).

(** The activities request made with [token]. *)
Definition activitiesGet (token : string) : Sent :=
  ActivitiesGet "https://www.strava.com/api/v3/athlete/activities?per_page=30"
                ("Bearer " ++ token).

Definition failed : HttpResponse :=
  {| httpStatus := 500; httpBody := ErrorBody "Failed to fetch Strava data" |}.

(** X10: the activities handler answers in one of two ways.  When the
    token endpoint answers 2xx with a token and the activities endpoint,
    asked with that token for 30 activities per page, answers 2xx with an
    array, the answer is 200 with the activities of that array whose type is
    "Run", in the array's order.  In every other case the answer is 500 with
    the fixed error "Failed to fetch Strava data": no upstream status or
    text reaches the caller. *)
Theorem activities_answer tokenUp activitiesUp env log :
  let answer := fst (GET tokenUp activitiesUp env log) in
  (forall tokenResponse data activitiesResponse activities,
      tokenUp (tokenPost env) = Responded tokenResponse ->
      ok tokenResponse = true ->
      json tokenResponse = Some data ->
      activitiesUp (activitiesGet (access_token data))
        = ActivitiesResponded activitiesResponse ->
      activitiesOk activitiesResponse = true ->
      activitiesJson activitiesResponse = Some activities ->
      answer
      = {| httpStatus := 200;
           httpBody := ActivitiesBody
             (filter (fun a => (activity_type a =? "Run")%string) activities) |})
  /\ (answer = failed
      \/ exists tokenResponse data activitiesResponse activities,
           tokenUp (tokenPost env) = Responded tokenResponse
           /\ ok tokenResponse = true
           /\ json tokenResponse = Some data
           /\ activitiesUp (activitiesGet (access_token data))
              = ActivitiesResponded activitiesResponse
           /\ activitiesOk activitiesResponse = true
           /\ activitiesJson activitiesResponse = Some activities
           /\ answer
              = {| httpStatus := 200;
                   httpBody := ActivitiesBody
                     (filter (fun a => (activity_type a =? "Run")%string) activities) |}).
Proof.
  cbv zeta. unfold GET, tryGET, getAccessToken. fold (tokenPost env). split.
  - intros tokenResponse data activitiesResponse activities Ht Hok Hj Ha Hao Haj.
    rewrite Ht, Hok, Hj. simpl negb. cbv iota zeta.
    change (ActivitiesGet activitiesUrl ("Bearer " ++ access_token data))
      with (activitiesGet (access_token data)).
    rewrite Ha, Hao, Haj. reflexivity.
  - destruct (tokenUp (tokenPost env)) as [tokenResponse |] eqn:Ht; [| left; reflexivity].
    destruct (ok tokenResponse) eqn:Hok; simpl negb; cbv iota; [| left; reflexivity].
    destruct (json tokenResponse) as [data |] eqn:Hj; [| left; reflexivity].
    cbv zeta.
    change (ActivitiesGet activitiesUrl ("Bearer " ++ access_token data))
      with (activitiesGet (access_token data)).
    destruct (activitiesUp (activitiesGet (access_token data)))
      as [activitiesResponse |] eqn:Ha; [| left; reflexivity].
    destruct (activitiesOk activitiesResponse) eqn:Hao; simpl negb; cbv iota;
      [| left; reflexivity].
    destruct (activitiesJson activitiesResponse) as [activities |] eqn:Haj;
      [| left; reflexivity].
    right. exists tokenResponse, data, activitiesResponse, activities.
    repeat split; assumption || reflexivity.
Qed.

(** Two runs and a ride, as the activities endpoint lists them. *)
Definition morningRun : Activity :=
  {| activity_id := 1; activity_name := "Morning Run"; activity_distance := 12000;
     moving_time := 3600; start_date := "2024-01-01T07:00:00Z";
     activity_type := "Run" |}.

Definition lunchRide : Activity :=
  {| activity_id := 2; activity_name := "Lunch Ride"; activity_distance := 30000;
     moving_time := 4000; start_date := "2024-01-02T12:00:00Z";
     activity_type := "Ride" |}.

Definition eveningRun : Activity :=
  {| activity_id := 3; activity_name := "Evening Run"; activity_distance := 8000;
     moving_time := 2500; start_date := "2024-01-03T18:00:00Z";
     activity_type := "Run" |}.

Definition tokenGranted : Sent -> FetchOutcome :=
  fun _ => Responded {| status := 200; text := "{...}";
                        json := Some {| access_token := "fresh";
                                        expires_at := 1700021600 |} |}.

Definition activitiesListed : Sent -> ActivitiesOutcome :=
  fun _ => ActivitiesResponded
             {| activitiesStatus := 200;
                activitiesJson := Some [morningRun; lunchRide; eveningRun] |}.

Lemma activities_answer_witness :
  fst (GET tokenGranted activitiesListed envFull [])
  = {| httpStatus := 200; httpBody := ActivitiesBody [morningRun; eveningRun] |}.
Proof.
  apply (proj1 (activities_answer tokenGranted activitiesListed envFull [])
               {| status := 200; text := "{...}";
                  json := Some {| access_token := "fresh";
                                  expires_at := 1700021600 |} |}
               {| access_token := "fresh"; expires_at := 1700021600 |}
               {| activitiesStatus := 200;
                  activitiesJson := Some [morningRun; lunchRide; eveningRun] |}
               [morningRun; lunchRide; eveningRun]);
    reflexivity.
Defined.

(** X11: this variant keeps no token: every call of the handler starts by
    posting the refresh request, and the activities request follows only
    when that gave a token.  The log grows by the token request alone, or by
    the token request and then the activities request. *)
Theorem every_call_refreshes tokenUp activitiesUp env log :
  let after := snd (GET tokenUp activitiesUp env log) in
  after = (log ++ [tokenPost env])%list
  \/ exists data,
       (exists tokenResponse,
           tokenUp (tokenPost env) = Responded tokenResponse
           /\ ok tokenResponse = true
           /\ json tokenResponse = Some data)
       /\ after = (log ++ [tokenPost env; activitiesGet (access_token data)])%list.
Proof.
  cbv zeta. unfold GET, tryGET, getAccessToken. fold (tokenPost env).
  destruct (tokenUp (tokenPost env)) as [tokenResponse |] eqn:Ht; [| left; reflexivity].
  destruct (ok tokenResponse) eqn:Hok; simpl negb; cbv iota; [| left; reflexivity].
  destruct (json tokenResponse) as [data |] eqn:Hj; [| left; reflexivity].
  cbv zeta.
  change (ActivitiesGet activitiesUrl ("Bearer " ++ access_token data))
    with (activitiesGet (access_token data)).
  right. exists data. split; [exists tokenResponse; auto |].
  assert (Hlog : ((log ++ [tokenPost env]) ++ [activitiesGet (access_token data)]
                  = log ++ [tokenPost env; activitiesGet (access_token data)])%list)
    by (rewrite <- app_assoc; reflexivity).
  destruct (activitiesUp (activitiesGet (access_token data)))
    as [activitiesResponse |]; [| exact Hlog].
  destruct (activitiesOk activitiesResponse); simpl negb; cbv iota; [| exact Hlog].
  destruct (activitiesJson activitiesResponse); exact Hlog.
Qed.

End ActivitiesHandlerSpec.

(* ===================================================================== *)
(** * Properties of the weekly progress *)
(* ===================================================================== *)

Module WeeklyProgressSpec.

Import Binary64 Projection FloatOrder MinMaxFacts WeeklyProgress.
Local Open Scope float_scope.

Definition run (meters : float) : Activity :=
  {| id := 1; name := "Morning Run";
     distance := meters; moving_time := 3600;
     start_date := "2024-01-01T07:00:00Z"; type := "Run" |}.




(** Three runs of 8580 m, 9930 m and 1490 m against a goal of 20 km: the
    sum of the three quotients is 19.999999999999996, and the progress
    is a hair under 100. *)
Lemma three_runs_fall_short_of_the_goal :
  totalKm [run 8580; run 9930; run 1490] = 19.999999999999996
  /\ progressPercent [run 8580; run 9930; run 1490] 20 = 99.999999999999972.
Proof. split; vm_compute; reflexivity. Qed.

End WeeklyProgressSpec.

(* ===================================================================== *)
(** * Properties of [parsePaceToSeconds] and [formatHMS] *)
(* ===================================================================== *)

Module PaceSpec.

Import Polyline Pace.
Local Open Scope Z_scope.

(** ** Trimming *)

Lemma trimStart_whitespace (ws s : JsString) :
  forallb isWhiteSpace ws = true -> trimStart (ws ++ s) = trimStart s.
Proof.
  induction ws as [| c ws IH]; simpl; [reflexivity |].
  intros H. apply andb_true_iff in H. destruct H as [Hc Hws].
  rewrite Hc. apply IH, Hws.
Qed.

Lemma trimStart_all_whitespace (ws : JsString) :
  forallb isWhiteSpace ws = true -> trimStart ws = [].
Proof.
  intros H. rewrite <- (app_nil_r ws). rewrite trimStart_whitespace by exact H.
  reflexivity.
Qed.

(** Either everything is white space, or what [trimStart] leaves starts
    with a character that is not. *)
Lemma trimStart_cases (s : JsString) :
  (forallb isWhiteSpace s = true /\ trimStart s = [])
  \/ exists c r, trimStart s = c :: r /\ isWhiteSpace c = false.
Proof.
  induction s as [| c s IH]; simpl.
  - left; split; reflexivity.
  - destruct (isWhiteSpace c) eqn:Hc; simpl.
    + exact IH.
    + right. exists c, s. split; [reflexivity | exact Hc].
Qed.

Lemma trimStart_app_kept (s t : JsString) (c : Z) (r : JsString) :
  trimStart s = c :: r -> trimStart (s ++ t) = (c :: r) ++ t.
Proof.
  induction s as [| a s IH]; simpl; [discriminate |].
  destruct (isWhiteSpace a).
  - exact IH.
  - intros H. injection H as -> ->. reflexivity.
Qed.

Lemma forallb_rev (f : Z -> bool) (l : JsString) :
  forallb f (rev l) = forallb f l.
Proof.
  induction l as [| a l IH]; simpl; [reflexivity |].
  rewrite forallb_app, IH. simpl. rewrite andb_true_r. apply andb_comm.
Qed.

Lemma trim_leading (ws s : JsString) :
  forallb isWhiteSpace ws = true -> trim (ws ++ s) = trim s.
Proof.
  intros H. unfold trim. rewrite trimStart_whitespace by exact H. reflexivity.
Qed.

Lemma trim_trailing (s ws : JsString) :
  forallb isWhiteSpace ws = true -> trim (s ++ ws) = trim s.
Proof.
  intros H. unfold trim.
  destruct (trimStart_cases s) as [[Hall Hnil] | [c [r [Hs Hc]]]].
  - rewrite Hnil. rewrite (trimStart_all_whitespace (s ++ ws)); [reflexivity |].
    rewrite forallb_app, Hall, H. reflexivity.
  - rewrite (trimStart_app_kept s ws c r Hs), Hs.
    rewrite rev_app_distr.
    rewrite trimStart_whitespace by (rewrite forallb_rev; exact H).
    reflexivity.
Qed.

(** ** Formatting a number of seconds *)

(** What [formatHMS] prints for the rounded, clamped number of seconds
    [s]. *)
Definition formatSeconds (s : Z) : string :=
  let h := s / 3600 in
  let m := (s mod 3600) / 60 in
  let sec := s mod 60 in
  if 0 <? h
  then (StringOfInt h ++ ":" ++ padStart2 (StringOfInt m) ++ ":"
          ++ padStart2 (StringOfInt sec))%string
  else (StringOfInt m ++ ":" ++ padStart2 (StringOfInt sec))%string.

Lemma formatHMS_seconds (x : Q) :
  formatHMS x = formatSeconds (Z.max 0 (MathRound x)).
Proof. reflexivity. Qed.

(** Parsing what was printed gives [s] back. *)
Definition roundTrips (s : Z) : bool :=
  match parsePaceToSeconds (jsString (formatSeconds s)) with
  | Some n => n =? s
  | None => false
  end.

Lemma below_one_hour_round_trips (s : Z) :
  0 <= s < 3600 -> roundTrips s = true.
Proof.
  intros Hs.
  assert (Hall : forallb roundTrips (List.map Z.of_nat (seq 0 3600)) = true)
    by (vm_compute; reflexivity).
  rewrite forallb_forall in Hall. apply Hall.
  apply in_map_iff. exists (Z.to_nat s). split; [lia |].
  apply in_seq. lia.
Qed.

(** ** The properties *)

(** The trimmed string is a minutes field of one or two digits, a colon,
    and a seconds field of a digit up to 5 and a digit; [n] is the number
    the minutes digits spell times 60 plus the number the seconds digits
    spell. *)
Definition readsAs (trimmed : JsString) (n : Z) : Prop :=
  (exists m1 s1 s2,
      trimmed = [m1; 58; s1; s2]
      /\ 48 <= m1 <= 57 /\ 48 <= s1 <= 53 /\ 48 <= s2 <= 57
      /\ n = (m1 - 48) * 60 + ((s1 - 48) * 10 + (s2 - 48)))
  \/ (exists m1 m2 s1 s2,
         trimmed = [m1; m2; 58; s1; s2]
         /\ 48 <= m1 <= 57 /\ 48 <= m2 <= 57 /\ 48 <= s1 <= 53 /\ 48 <= s2 <= 57
         /\ n = ((m1 - 48) * 10 + (m2 - 48)) * 60 + ((s1 - 48) * 10 + (s2 - 48))).

Ltac split_digit_tests :=
  unfold isDigit, isDigit05, isColon in *;
  repeat match goal with
         | Hb : (_ && _)%bool = true |- _ => apply andb_true_iff in Hb; destruct Hb
         | Hb : (_ <=? _) = true |- _ => apply Z.leb_le in Hb
         | Hb : (_ =? _) = true |- _ => apply Z.eqb_eq in Hb
         end.

Ltac prove_digit_tests :=
  unfold isDigit, isDigit05, isColon;
  repeat (apply andb_true_iff; split);
  try (apply Z.leb_le; lia); try (apply Z.eqb_eq; reflexivity).

(** X12: [parsePaceToSeconds] returns [n] exactly when the trimmed string
    is [m:ss] or [mm:ss], with ASCII digits for the minutes and a seconds
    field from 00 to 59, and [n] is the minutes the string spells times 60
    plus the seconds it spells; so what it returns lies between 0 and 5999,
    and a string of any other shape gives [null]. *)
Theorem parsed_pace_is_minutes_and_seconds (pace : JsString) (n : Z) :
  (parsePaceToSeconds pace = Some n <-> readsAs (trim pace) n)
  /\ (parsePaceToSeconds pace = Some n -> 0 <= n <= 5999).
Proof.
  assert (Hto : parsePaceToSeconds pace = Some n -> readsAs (trim pace) n).
  { unfold parsePaceToSeconds. cbv zeta.
    destruct (trim pace) as [| a [| b [| c [| d [| e [| f r]]]]]];
      simpl; try discriminate.
    - destruct (isDigit a && isColon b && isDigit05 c && isDigit d) eqn:H;
        [| discriminate].
      intros E. inversion E; subst n; clear E.
      split_digit_tests. subst b.
      left. exists a, c, d. unfold NumberOfDigits; simpl.
      repeat split; try lia; reflexivity.
    - destruct (isDigit a && isDigit b && isColon c && isDigit05 d && isDigit e) eqn:H;
        [| discriminate].
      intros E. inversion E; subst n; clear E.
      split_digit_tests. subst c.
      right. exists a, b, d, e. unfold NumberOfDigits; simpl.
      repeat split; try lia; reflexivity. }
  split; [split; [exact Hto |] |].
  - unfold parsePaceToSeconds. cbv zeta.
    intros [[m1 [s1 [s2 [E [Hm1 [Hs1 [Hs2 Hn]]]]]]]
           | [m1 [m2 [s1 [s2 [E [Hm1 [Hm2 [Hs1 [Hs2 Hn]]]]]]]]]];
      rewrite E; cbn [matchPace].
    + replace (isDigit m1 && isColon 58 && isDigit05 s1 && isDigit s2) with true
        by (symmetry; prove_digit_tests).
      unfold NumberOfDigits; simpl. f_equal. lia.
    + replace (isDigit m1 && isDigit m2 && isColon 58 && isDigit05 s1 && isDigit s2)
        with true by (symmetry; prove_digit_tests).
      unfold NumberOfDigits; simpl. f_equal. lia.
  - intros H. apply Hto in H.
    destruct H as [[m1 [s1 [s2 [_ [Hm1 [Hs1 [Hs2 Hn]]]]]]]
                  | [m1 [m2 [s1 [s2 [_ [Hm1 [Hm2 [Hs1 [Hs2 Hn]]]]]]]]]]; lia.
Qed.

Lemma parsed_pace_is_minutes_and_seconds_witness :
  readsAs (trim (jsString " 4:45 ")) 285 /\ 0 <= 285 <= 5999.
Proof.
  pose proof (parsed_pace_is_minutes_and_seconds (jsString " 4:45 ") 285) as [Hiff Hrange].
  split.
  - apply (proj1 Hiff). reflexivity.
  - apply Hrange. reflexivity.
Defined.

(** X13: a time below one hour survives the round trip: when the rounded,
    clamped number of seconds [s = max(0, round(totalSeconds))] is below
    3600, [formatHMS] prints it as [m:ss] and [parsePaceToSeconds] reads
    that back as [s]. *)
Theorem format_then_parse (totalSeconds : Q) :
  let s := Z.max 0 (MathRound totalSeconds) in
  s < 3600 ->
  parsePaceToSeconds (jsString (formatHMS totalSeconds)) = Some s.
Proof.
  cbv zeta. intros Hs. rewrite formatHMS_seconds.
  pose proof (below_one_hour_round_trips (Z.max 0 (MathRound totalSeconds))) as H.
  unfold roundTrips in H.
  destruct (parsePaceToSeconds _) as [n |].
  - f_equal. apply Z.eqb_eq, H. lia.
  - discriminate H. lia.
Qed.

Lemma format_then_parse_witness :
  parsePaceToSeconds (jsString (formatHMS (5699 # 20))) = Some 285.
Proof.
  apply (format_then_parse (5699 # 20)). reflexivity.
Defined.

(** X14: white space around a pace does not matter: putting any white
    space characters (spaces, tabs, line ends, no-break spaces, ...) before
    and after a string does not change what [parsePaceToSeconds] returns
    for it. *)
Theorem surrounding_whitespace_ignored (before pace after : JsString) :
  forallb isWhiteSpace before = true ->
  forallb isWhiteSpace after = true ->
  parsePaceToSeconds (before ++ pace ++ after) = parsePaceToSeconds pace.
Proof.
  intros Hb Ha. unfold parsePaceToSeconds. cbv zeta.
  rewrite trim_leading by exact Hb.
  rewrite trim_trailing by exact Ha.
  reflexivity.
Qed.

Lemma surrounding_whitespace_ignored_witness :
  parsePaceToSeconds ([9; 32] ++ jsString "4:45" ++ [160; 10])
  = parsePaceToSeconds (jsString "4:45").
Proof.
  apply (surrounding_whitespace_ignored [9; 32] (jsString "4:45") [160; 10]);
    reflexivity.
Defined.

End PaceSpec.

(* ===================================================================== *)
(** * Further properties of [decodePolyline] *)
(* ===================================================================== *)

Module PolylineMore.

Import Polyline PolylineSpec.
Local Open Scope Z_scope.

(** ** Characters and chunks *)

(** The character carries the continuation bit: [b >= 0x20] for
    [b = c - 63]. *)
Definition continuation (c : Z) : bool := 32 <=? c - 63.

(** The number a run of characters spells, five bits per character, least
    significant first. *)
Definition chunkValue (chars : JsString) : Z :=
  fold_right (fun c acc => (c - 63) mod 32 + 32 * acc) 0 chars.

(** ** Arithmetic of the 32-bit operations *)

Lemma toInt32_small (z : Z) : - 2 ^ 31 <= z < 2 ^ 31 -> toInt32 z = z.
Proof.
  intros H. unfold toInt32. rewrite Z.mod_small; lia.
Qed.

Lemma toInt32_mod32 (z : Z) : toInt32 z mod 32 = z mod 32.
Proof.
  unfold toInt32. rewrite (Z.mod_eq (z + 2 ^ 31) (2 ^ 32)) by lia.
  replace (z + 2 ^ 31 - 2 ^ 32 * ((z + 2 ^ 31) / 2 ^ 32) - 2 ^ 31)
    with (z + (- (2 ^ 27 * ((z + 2 ^ 31) / 2 ^ 32))) * 32) by ring.
  apply Z.mod_add. lia.
Qed.

Lemma low5_mod (z : Z) : low5 (Some z) = z mod 32.
Proof.
  unfold low5. change 31 with (Z.ones 5).
  rewrite Z.land_ones by lia. apply toInt32_mod32.
Qed.

Lemma small_has_no_high_bit (a n i : Z) :
  0 <= a < 2 ^ n -> n <= i -> Z.testbit a i = false.
Proof.
  intros [Ha0 Ha] Hi.
  destruct (Z.eq_dec a 0) as [-> | Hne]; [apply Z.bits_0 |].
  apply Z.bits_above_log2; [exact Ha0 |].
  assert (0 <= n) by (destruct (Z.lt_ge_cases n 0) as [Hn | Hn];
                      [rewrite Z.pow_neg_r in Ha by exact Hn; lia | exact Hn]).
  apply Z.lt_le_trans with n; [| exact Hi].
  apply Z.log2_lt_pow2; lia.
Qed.

Lemma land_1 (a : Z) : Z.land a 1 = a mod 2.
Proof. exact (Z.land_ones a 1 ltac:(lia)). Qed.

Lemma shiftr_1 (a : Z) : Z.shiftr a 1 = a / 2.
Proof. exact (Z.shiftr_div_pow2 a 1 ltac:(lia)). Qed.

(** Or-ing in bits above the ones already there is an addition. *)
Lemma lor_above (a b n : Z) :
  0 <= n -> 0 <= a < 2 ^ n -> Z.lor a (b * 2 ^ n) = a + b * 2 ^ n.
Proof.
  intros Hn Ha.
  assert (Hland : Z.land a (b * 2 ^ n) = 0).
  { apply Z.bits_inj'. intros i Hi.
    rewrite Z.land_spec, Z.bits_0.
    destruct (Z.lt_ge_cases i n) as [Hlt | Hge].
    - rewrite Z.mul_pow2_bits_low by exact Hlt. apply andb_false_r.
    - rewrite (small_has_no_high_bit a n i Ha Hge). reflexivity. }
  rewrite <- Z.lxor_lor by exact Hland.
  symmetry. apply Z.add_nocarry_lxor, Hland.
Qed.

(** One step of the inner loop, below bit 30: the chunk is added at its
    place. *)
Lemma chunk_added (c i result : Z) :
  0 <= i <= 5 -> 0 <= result < 2 ^ (5 * i) ->
  Z.lor result (shl32 (low5 (Some (c - 63))) (5 * i))
  = result + 2 ^ (5 * i) * ((c - 63) mod 32).
Proof.
  intros Hi Hr. rewrite low5_mod.
  pose proof (Z.mod_pos_bound (c - 63) 32 ltac:(lia)) as Hv.
  set (v := (c - 63) mod 32) in *.
  unfold shl32. change 31 with (Z.ones 5).
  rewrite Z.land_ones by lia. change (2 ^ 5) with 32.
  rewrite (Z.mod_small (5 * i) 32) by lia.
  rewrite Z.shiftl_mul_pow2 by lia.
  assert (Hpow : 0 < 2 ^ (5 * i) <= 2 ^ 25).
  { split; [apply Z.pow_pos_nonneg; lia |].
    apply Z.pow_le_mono_r; lia. }
  rewrite toInt32_small by (change (2 ^ 25) with 33554432 in Hpow;
                            change (2 ^ 31) with 2147483648; nia).
  rewrite lor_above by lia. ring.
Qed.

(** ** The inner loop on a complete chunk *)

Lemma readChunk_cons (c : Z) (rest : JsString) (shift result : Z) :
  readChunk (c :: rest) shift result
  = if continuation c
    then readChunk rest (shift + 5)
                   (Z.lor result (shl32 (low5 (Some (c - 63))) shift))
    else (Z.lor result (shl32 (low5 (Some (c - 63))) shift), rest).
Proof. reflexivity. Qed.

(** A complete chunk, continuation characters and then one without the
    bit, is read whole and nothing more: what follows it is left, and does
    not influence the value read. *)
Lemma readChunk_complete (body : JsString) (last : Z) (t : JsString) (shift result : Z) :
  forallb continuation body = true ->
  continuation last = false ->
  readChunk (body ++ last :: t) shift result
  = (fst (readChunk (body ++ [last]) shift result), t).
Proof.
  revert shift result.
  induction body as [| c body IH]; intros shift result Hb Hl.
  - cbn [app]. rewrite !readChunk_cons, Hl. reflexivity.
  - simpl in Hb. apply andb_true_iff in Hb. destruct Hb as [Hc Hb].
    cbn [app]. rewrite !readChunk_cons, Hc.
    apply IH; assumption.
Qed.

Lemma readChunk_value_from (body : JsString) (last : Z) (i result : Z) :
  forallb continuation body = true ->
  continuation last = false ->
  0 <= i ->
  i + Z.of_nat (List.length body) <= 5 ->
  0 <= result < 2 ^ (5 * i) ->
  fst (readChunk (body ++ [last]) (5 * i) result)
  = result + 2 ^ (5 * i) * chunkValue (body ++ [last]).
Proof.
  revert i result.
  induction body as [| c body IH]; intros i result Hb Hl Hi Hlen Hr.
  - simpl in Hlen. cbn [app]. rewrite readChunk_cons, Hl.
    cbn [fst]. rewrite chunk_added by lia.
    unfold chunkValue. cbn [fold_right]. ring.
  - simpl in Hb. apply andb_true_iff in Hb. destruct Hb as [Hc Hb].
    simpl List.length in Hlen.
    cbn [app]. rewrite readChunk_cons, Hc.
    rewrite chunk_added by lia.
    replace (5 * i + 5) with (5 * (i + 1)) by ring.
    pose proof (Z.mod_pos_bound (c - 63) 32 ltac:(lia)) as Hv.
    assert (Hpow : 2 ^ (5 * (i + 1)) = 32 * 2 ^ (5 * i)).
    { replace (5 * (i + 1)) with (5 + 5 * i) by ring.
      rewrite Z.pow_add_r by lia. reflexivity. }
    assert (Hpos : 0 < 2 ^ (5 * i)) by (apply Z.pow_pos_nonneg; lia).
    rewrite IH; try assumption; try lia.
    + rewrite Hpow. unfold chunkValue. cbn [app fold_right].
      fold (chunkValue (body ++ [last])). ring.
    + rewrite Hpow. nia.
Qed.

(** ** The properties *)

(** X15: the sign decoding is the arithmetic one: an even [result] [2n]
    stands for the delta [n], an odd [result] [2n + 1] for the delta
    [-n - 1], for every integer [n]. *)
Theorem unzigzag_arithmetic (n : Z) :
  unzigzag (2 * n) = n /\ unzigzag (2 * n + 1) = - n - 1.
Proof.
  unfold unzigzag. rewrite !land_1, !shiftr_1.
  assert (E0 : (2 * n) mod 2 = 0) by (rewrite Z.mul_comm; apply Z.mod_mul; lia).
  assert (E1 : 2 * n / 2 = n) by (rewrite Z.mul_comm; apply Z.div_mul; lia).
  assert (O0 : (2 * n + 1) mod 2 = 1)
    by (rewrite Z.add_comm, Z.mul_comm, Z.mod_add by lia; reflexivity).
  assert (O1 : (2 * n + 1) / 2 = n)
    by (rewrite Z.add_comm, Z.mul_comm, Z.div_add by lia; reflexivity).
  rewrite E0, E1, O0, O1. simpl. split; [reflexivity |].
  unfold Z.lnot. lia.
Qed.

(** X16: a chunk of up to six characters (continuation characters, then
    one without the continuation bit) is read whole and as a base-32
    number: [readChunk] returns the sum of the characters' low five bits
    [(c - 63) mod 32], the first character least significant, and leaves
    exactly what follows the chunk. *)
Theorem chunk_is_base32_number (body : JsString) (last : Z) (t : JsString) :
  forallb continuation body = true ->
  continuation last = false ->
  (List.length body <= 5)%nat ->
  readChunk (body ++ last :: t) 0 0 = (chunkValue (body ++ [last]), t).
Proof.
  intros Hb Hl Hlen.
  rewrite readChunk_complete by assumption.
  f_equal.
  pose proof (readChunk_value_from body last 0 0 Hb Hl (Z.le_refl 0)) as H.
  change (5 * 0) with 0 in H. change (2 ^ 0) with 1 in H.
  rewrite H; lia.
Qed.

Lemma chunk_is_base32_number_witness :
  readChunk (jsString "_p~iF" ++ jsString "~ps|U") 0 0 = (7700000, jsString "~ps|U").
Proof.
  apply (chunk_is_base32_number (jsString "_p~i") 70 (jsString "~ps|U"));
    [reflexivity | reflexivity | simpl; lia].
Defined.

(** ** Counting passes *)

Lemma decodeLoop_nil (lat lng : float) : decodeLoop [] lat lng = [].
Proof. simp decodeLoop. reflexivity. Qed.

(** A pass uses up at least two characters, or all there are. *)
Lemma pass_consumes (c : Z) (r : JsString) :
  let rest2 := snd (readChunk (snd (readChunk (c :: r) 0 0)) 0 0) in
  rest2 = [] \/ (List.length rest2 + 2 <= List.length (c :: r))%nat.
Proof.
  cbv zeta.
  pose proof (readChunk_rest_lt c r 0 0) as H1.
  destruct (snd (readChunk (c :: r) 0 0)) as [| c' r'].
  - left. reflexivity.
  - right. pose proof (readChunk_rest_lt c' r' 0 0) as H2. lia.
Qed.

Lemma decodeLoop_count (n : nat) :
  forall (s : JsString) (lat lng : float),
    (List.length s <= n)%nat ->
    (2 * List.length (decodeLoop s lat lng) <= List.length s + 1)%nat.
Proof.
  induction n as [| n IH]; intros s lat lng Hlen.
  - destruct s; [rewrite decodeLoop_nil; simpl; lia | simpl in Hlen; lia].
  - destruct s as [| c r]; [rewrite decodeLoop_nil; simpl; lia |].
    rewrite decodeLoop_pass. cbv zeta.
    destruct (pass_consumes c r) as [E | Hle]; cbv zeta in *.
    + rewrite E, decodeLoop_nil. simpl. lia.
    + cbn [List.length]. 
      match goal with
      | |- context [decodeLoop ?rest ?a ?b] =>
          pose proof (IH rest a b) as Hrest
      end.
      simpl in Hlen. cbn [List.length] in Hle.
      lia.
Qed.

(** X17: the decoder returns no point exactly for the empty string, and
    never more than half the number of characters, rounded up: a point
    costs at least two characters, except that a last, single character
    still gives one. *)
Theorem decoded_point_count (encoded : JsString) :
  (decodePolyline encoded = [] <-> encoded = [])
  /\ (2 * List.length (decodePolyline encoded) <= List.length encoded + 1)%nat.
Proof.
  unfold decodePolyline. split.
  - split.
    + destruct encoded as [| c r]; [reflexivity |].
      rewrite decodeLoop_pass. cbv zeta. discriminate.
    + intros ->. apply decodeLoop_nil.
  - apply (decodeLoop_count (List.length encoded)). apply Nat.le_refl.
Qed.

(** X18: decoding is incremental.  When the string starts with a complete
    latitude chunk followed by a complete longitude chunk, the first point
    pushed is the running position plus the two decoded deltas (divided by
    1e5), and the rest of the string is decoded from that new position:
    every point is relative to the one before. *)
Theorem decode_is_incremental
    (body1 : JsString) (last1 : Z) (body2 : JsString) (last2 : Z) (t : JsString)
    (lat lng : float) :
  forallb continuation body1 = true -> continuation last1 = false ->
  forallb continuation body2 = true -> continuation last2 = false ->
  let lat' := PrimFloat.add lat
                (ofInt32 (unzigzag (fst (readChunk (body1 ++ [last1]) 0 0)))) in
  let lng' := PrimFloat.add lng
                (ofInt32 (unzigzag (fst (readChunk (body2 ++ [last2]) 0 0)))) in
  decodeLoop ((body1 ++ [last1]) ++ (body2 ++ [last2]) ++ t) lat lng
  = (e5 lat', e5 lng') :: decodeLoop t lat' lng'.
Proof.
  intros Hb1 Hl1 Hb2 Hl2. cbv zeta.
  assert (Hshape : (body1 ++ [last1]) ++ (body2 ++ [last2]) ++ t
                   = body1 ++ last1 :: (body2 ++ last2 :: t)).
  { rewrite <- !app_assoc. reflexivity. }
  rewrite Hshape.
  destruct (body1 ++ last1 :: body2 ++ last2 :: t) as [| c r] eqn:E.
  { destruct body1; discriminate E. }
  rewrite decodeLoop_pass. cbv zeta. rewrite <- E.
  rewrite (readChunk_complete body1 last1 _ 0 0 Hb1 Hl1). cbn [fst snd].
  rewrite (readChunk_complete body2 last2 t 0 0 Hb2 Hl2). cbn [fst snd].
  reflexivity.
Qed.

Lemma decode_is_incremental_witness :
  decodeLoop ((jsString "_p~i" ++ [70]) ++ (jsString "~ps|" ++ [85])
              ++ jsString "_ulLnnqC") 0%float 0%float
  = (38.5%float, (-120.2)%float)
      :: decodeLoop (jsString "_ulLnnqC") 3850000%float (-12020000)%float.
Proof.
  exact (decode_is_incremental (jsString "_p~i") 70 (jsString "~ps|") 85
           (jsString "_ulLnnqC") 0%float 0%float
           eq_refl eq_refl eq_refl eq_refl).
Defined.

End PolylineMore.

(* ===================================================================== *)
(** * [decodePolyline] on an input that ends inside a coordinate *)
(* ===================================================================== *)

Module PolylineTruncation.

Import Polyline PolylineSpec PolylineMore.
Local Open Scope Z_scope.

(** A string is all continuation characters, or it starts with a complete
    chunk. *)
Lemma chunk_or_unterminated (s : JsString) :
  forallb continuation s = true
  \/ exists body last t,
       s = body ++ last :: t
       /\ forallb continuation body = true
       /\ continuation last = false.
Proof.
  induction s as [| c s IH].
  - left. reflexivity.
  - destruct (continuation c) eqn:Hc.
    + destruct IH as [Hall | [body [last [t [E [Hb Hl]]]]]].
      * left. simpl. rewrite Hc, Hall. reflexivity.
      * right. exists (c :: body), last, t.
        split; [rewrite E; reflexivity |].
        split; [simpl; rewrite Hc, Hb; reflexivity | exact Hl].
    + right. exists [], c, s. repeat split. exact Hc.
Qed.

(** Without a character that ends the chunk, the inner loop runs to the
    end of the string. *)
Lemma readChunk_unterminated (s : JsString) (shift result : Z) :
  forallb continuation s = true -> snd (readChunk s shift result) = [].
Proof.
  revert shift result.
  induction s as [| c s IH]; intros shift result H; [reflexivity |].
  simpl in H. apply andb_true_iff in H. destruct H as [Hc Hs].
  rewrite readChunk_cons, Hc. apply IH, Hs.
Qed.

(** One pass of the loop pushes one two-component pair.  Either the pass
    finds a complete latitude chunk followed by a complete longitude chunk
    (continuation characters, then a character without the continuation
    bit): the pair is the running position plus the deltas of these two
    chunks, and decoding goes on with what follows them.  Or the input ends
    inside the pass, before the latitude chunk or the longitude chunk is
    complete: then a pair is pushed all the same, it is the last one, the
    cut chunk counts with the bits read so far and a chunk not there at all
    counts as 0. *)
Lemma pass_complete_or_last (encoded : JsString) (lat lng : float) :
  decodeLoop [] lat lng = []
  /\ (encoded <> [] ->
      let rd1 := readChunk encoded 0 0 in
      let lat' := PrimFloat.add lat (ofInt32 (unzigzag (fst rd1))) in
      let rd2 := readChunk (snd rd1) 0 0 in
      let lng' := PrimFloat.add lng (ofInt32 (unzigzag (fst rd2))) in
      (exists body1 last1 body2 last2 t,
          encoded = body1 ++ last1 :: body2 ++ last2 :: t
          /\ forallb continuation body1 = true /\ continuation last1 = false
          /\ forallb continuation body2 = true /\ continuation last2 = false
          /\ fst rd1 = fst (readChunk (body1 ++ [last1]) 0 0)
          /\ fst rd2 = fst (readChunk (body2 ++ [last2]) 0 0)
          /\ decodeLoop encoded lat lng
             = (e5 lat', e5 lng') :: decodeLoop t lat' lng')
      \/ (decodeLoop encoded lat lng = [(e5 lat', e5 lng')]
          /\ ((forallb continuation encoded = true
               /\ lng' = PrimFloat.add lng 0%float)
              \/ exists body1 last1 rest,
                   encoded = body1 ++ last1 :: rest
                   /\ forallb continuation body1 = true
                   /\ continuation last1 = false
                   /\ fst rd1 = fst (readChunk (body1 ++ [last1]) 0 0)
                   /\ forallb continuation rest = true
                   /\ (rest = [] -> lng' = PrimFloat.add lng 0%float)))).
Proof.
  split; [apply decodeLoop_nil |].
  intros Hne. cbv zeta.
  destruct encoded as [| c r]; [contradiction Hne; reflexivity |].
  rewrite decodeLoop_pass. cbv zeta.
  destruct (chunk_or_unterminated (c :: r)) as [Hall | [body1 [last1 [rest [E [Hb1 Hl1]]]]]].
  - right.
    rewrite (readChunk_unterminated (c :: r) 0 0 Hall).
    cbn [readChunk charMinus63 hd_error option_map low5 snd fst].
    rewrite decodeLoop_nil.
    split; [reflexivity |]. left. split; [exact Hall | reflexivity].
  - rewrite E.
    rewrite (readChunk_complete body1 last1 rest 0 0 Hb1 Hl1). cbn [fst snd].
    destruct (chunk_or_unterminated rest) as [Hall | [body2 [last2 [t [E2 [Hb2 Hl2]]]]]].
    + right.
      rewrite (readChunk_unterminated rest 0 0 Hall), decodeLoop_nil.
      split; [reflexivity |]. right.
      exists body1, last1, rest.
      repeat split; try assumption.
      intros ->. reflexivity.
    + left. exists body1, last1, body2, last2, t.
      rewrite E2.
      rewrite (readChunk_complete body2 last2 t 0 0 Hb2 Hl2). cbn [fst snd].
      repeat split; assumption.
Qed.

(** ** The whole output *)

(** A chunk: continuation characters, then one character without the
    continuation bit. *)
Definition completeChunk (s : JsString) : Prop :=
  exists body last,
    s = (body ++ [last])%list
    /\ forallb continuation body = true
    /\ continuation last = false.

(** The delta the first chunk of a string spells (with the bits read so
    far when the string ends inside it, and 0 for the empty string). *)
Definition delta (s : JsString) : float := ofInt32 (unzigzag (fst (readChunk s 0 0))).

(** The pairs that a sequence of (latitude chunk, longitude chunk) spells
    from a running position, and the position after them. *)
Fixpoint pairsOf (chunks : list (JsString * JsString)) (lat lng : float)
    : list (float * float) * (float * float) :=
  match chunks with
  | [] => ([], (lat, lng))
  | (a, b) :: chunks' =>
      let lat' := PrimFloat.add lat (delta a) in
      let lng' := PrimFloat.add lng (delta b) in
      let (out, position) := pairsOf chunks' lat' lng' in
      ((e5 lat', e5 lng') :: out, position)
  end.

(** The characters of a sequence of chunk pairs. *)
Definition flat (chunks : list (JsString * JsString)) : JsString :=
  flat_map (fun c => (fst c ++ snd c)%list) chunks.

(** What is left of an input that ends inside a pair: at least one
    character, and no two complete chunks. *)
Definition cutPair (rest : JsString) : Prop :=
  rest <> []
  /\ (forallb continuation rest = true
      \/ exists body last tail,
           rest = (body ++ last :: tail)%list
           /\ forallb continuation body = true
           /\ continuation last = false
           /\ forallb continuation tail = true).

Lemma pairsOf_cons (a b : JsString) (chunks : list (JsString * JsString)) (lat lng : float) :
  pairsOf ((a, b) :: chunks) lat lng
  = ((e5 (PrimFloat.add lat (delta a)), e5 (PrimFloat.add lng (delta b)))
       :: fst (pairsOf chunks (PrimFloat.add lat (delta a)) (PrimFloat.add lng (delta b))),
     snd (pairsOf chunks (PrimFloat.add lat (delta a)) (PrimFloat.add lng (delta b)))).
Proof.
  cbn [pairsOf].
  destruct (pairsOf chunks (PrimFloat.add lat (delta a)) (PrimFloat.add lng (delta b))).
  reflexivity.
Qed.

(** The reference polyline cut after its first pair and the second
    latitude. *)
Definition cutAfterSecondLatitude : JsString := jsString "_p~iF~ps|U_ulL".

(** It decodes to the first pair and a second one that repeats the first
    longitude. *)
Lemma cut_route_decodes_to_two_pairs :
  decodePolyline cutAfterSecondLatitude
  = [(38.5%float, (-120.2)%float); (40.7%float, (-120.2)%float)].
Proof. vm_compute. reflexivity. Qed.

(** C6, amended: the input is a sequence of complete (latitude chunk,
    longitude chunk) pairs followed by a rest that is empty or ends inside
    a pair.  The output is one two-component pair per complete chunk pair,
    each the running position plus the two deltas; when the rest is empty
    that is all; when the input ends inside a pair, one more pair follows,
    the last: its cut chunk counts with the bits read so far, and when no
    character of the longitude is there its longitude is the running
    longitude plus 0.  So every pair but the last comes from a complete
    latitude and a complete longitude chunk, and the number of pairs is
    the number of complete chunk pairs, plus one when the input ends
    inside a pair. *)
Theorem every_pair_but_the_last_is_complete (encoded : JsString) (lat lng : float) :
  exists (chunks : list (JsString * JsString)) (rest : JsString),
    encoded = (flat chunks ++ rest)%list
    /\ Forall (fun c => completeChunk (fst c) /\ completeChunk (snd c)) chunks
    /\ let out := fst (pairsOf chunks lat lng) in
       let lat_n := fst (snd (pairsOf chunks lat lng)) in
       let lng_n := snd (snd (pairsOf chunks lat lng)) in
       (rest = [] /\ decodeLoop encoded lat lng = out)
       \/ (cutPair rest
           /\ decodeLoop encoded lat lng
              = (out ++ [(e5 (PrimFloat.add lat_n (delta rest)),
                          e5 (PrimFloat.add lng_n (delta (snd (readChunk rest 0 0)))))])%list
           /\ (forallb continuation rest = true \/ completeChunk rest ->
               PrimFloat.add lng_n (delta (snd (readChunk rest 0 0)))
               = PrimFloat.add lng_n 0%float)).
Proof.
  remember (List.length encoded) as n eqn:Hn.
  revert encoded lat lng Hn.
  induction n as [n IH] using lt_wf_ind. intros encoded lat lng Hn.
  destruct encoded as [| c r].
  - exists [], []. split; [reflexivity |]. split; [constructor |].
    cbv zeta. left. split; [reflexivity | apply decodeLoop_nil].
  - destruct (pass_complete_or_last (c :: r) lat lng) as [_ Hpass].
    specialize (Hpass ltac:(discriminate)). cbv zeta in Hpass.
    destruct Hpass as [[body1 [last1 [body2 [last2 [t [E [Hb1 [Hl1 [Hb2 [Hl2 [F1 [F2 D]]]]]]]]]]]]
                      | [D Hcut]].
    + set (a := (body1 ++ [last1])%list).
      set (b := (body2 ++ [last2])%list).
      assert (Ea : delta (c :: r) = delta a) by (unfold delta; rewrite F1; reflexivity).
      assert (Eb : delta (snd (readChunk (c :: r) 0 0)) = delta b)
        by (unfold delta; rewrite F2; reflexivity).
      fold (delta (c :: r)) in D. fold (delta (snd (readChunk (c :: r) 0 0))) in D.
      rewrite Ea, Eb in D.
      assert (Hlen : (List.length t < n)%nat).
      { rewrite Hn, E. rewrite !length_app. cbn [List.length].
        rewrite !length_app. cbn [List.length]. lia. }
      destruct (IH (List.length t) Hlen t
                   (PrimFloat.add lat (delta a)) (PrimFloat.add lng (delta b)) eq_refl)
        as [chunks [rest [Et [Hall Hout]]]].
      exists ((a, b) :: chunks), rest.
      split.
      { rewrite E, Et. unfold flat, a, b. cbn [flat_map fst snd].
        rewrite <- !app_assoc. cbn [app]. reflexivity. }
      split.
      { constructor; [| exact Hall]. cbn [fst snd]. split.
        - exists body1, last1. repeat split; assumption.
        - exists body2, last2. repeat split; assumption. }
      cbv zeta in Hout |- *. rewrite pairsOf_cons. cbn [fst snd].
      rewrite D.
      destruct Hout as [[Hr Hd] | [Hc [Hd Hz]]].
      * left. split; [exact Hr | rewrite Hd; reflexivity].
      * right. split; [exact Hc |]. split; [rewrite Hd; reflexivity | exact Hz].
    + exists [], (c :: r). split; [reflexivity |]. split; [constructor |].
      cbv zeta. cbn [pairsOf fst snd app]. right.
      split; [| split].
      * split; [discriminate |].
        destruct Hcut as [[Hall _] | [body1 [last1 [rest [E [Hb1 [Hl1 [_ [Hrest _]]]]]]]]].
        -- left. exact Hall.
        -- right. exists body1, last1, rest. repeat split; assumption.
      * exact D.
      * intros Hno. fold (delta (snd (readChunk (c :: r) 0 0))).
        destruct Hcut as [[_ Hz] | [body1 [last1 [rest [E [Hb1 [Hl1 [_ [Hrest Hz]]]]]]]]].
        -- exact Hz.
        -- destruct Hno as [Hall | [body [last [Ec [Hb Hl]]]]].
           ++ rewrite E in Hall. rewrite forallb_app in Hall.
              apply andb_true_iff in Hall. destruct Hall as [_ Hall].
              cbn [forallb] in Hall. rewrite Hl1 in Hall. discriminate Hall.
           ++ apply Hz.
              assert (Hrd : snd (readChunk (c :: r) 0 0) = rest)
                by (rewrite E, (readChunk_complete body1 last1 rest 0 0 Hb1 Hl1); reflexivity).
              assert (Hrd' : snd (readChunk (c :: r) 0 0) = [])
                by (rewrite Ec, (readChunk_complete body last [] 0 0 Hb Hl); reflexivity).
              congruence.
Qed.

End PolylineTruncation.

(* ===================================================================== *)
(** * Further properties of [buildSvgPath] *)
(* ===================================================================== *)

Module ProjectionMore.

Import Binary64 Projection MinMaxFacts ProjectionSpec.
Local Open Scope float_scope.

(** ** Shared lemmas *)

Lemma long_nonempty (points : list (float * float)) :
  (2 <= List.length points)%nat -> points <> [].
Proof.
  intros H ->. simpl in H. lia.
Qed.

Lemma xs_nonempty (points : list (float * float)) : points <> [] -> xs points <> [].
Proof.
  unfold xs. destruct points; [intros H; contradiction H; reflexivity | discriminate].
Qed.

Lemma ys_nonempty (points : list (float * float)) : points <> [] -> ys points <> [].
Proof.
  unfold ys. destruct points; [intros H; contradiction H; reflexivity | discriminate].
Qed.

(** A longitude of the input lies between [minX] and [maxX], a latitude
    between [minY] and [maxY], when no coordinate is NaN. *)
Lemma point_in_bbox (points : list (float * float)) (lat lng : float) :
  (forall a b, In (a, b) points -> isNaN a = false /\ isNaN b = false) ->
  In (lat, lng) points ->
  ((minX points <=? lng) = true /\ (lng <=? maxX points) = true)
  /\ ((minY points <=? lat) = true /\ (lat <=? maxY points) = true).
Proof.
  intros Hnum Hin.
  assert (Nx : numbers (xs points)).
  { intros x Hx. apply in_map_iff in Hx. destruct Hx as [[a b] [<- Hab]].
    apply (Hnum a b Hab). }
  assert (Ny : numbers (ys points)).
  { intros y Hy. apply in_map_iff in Hy. destruct Hy as [[a b] [<- Hab]].
    apply (Hnum a b Hab). }
  assert (Hx : In lng (xs points)) by (apply (in_map snd points (lat, lng)), Hin).
  assert (Hy : In lat (ys points)) by (apply (in_map fst points (lat, lng)), Hin).
  repeat split.
  - apply MathMin_le; assumption.
  - apply MathMax_ge; assumption.
  - apply MathMin_le; assumption.
  - apply MathMax_ge; assumption.
Qed.

(** X23: with two points or more the result carries a bounding box; each
    of its four sides is the longitude or latitude of some input point,
    and, when no coordinate of the input is NaN, every input point lies
    inside it. *)
Theorem bbox_is_tight
    (show : float -> string) (points : list (float * float))
    (width height padding : float) :
  (2 <= List.length points)%nat ->
  exists b,
    bbox (buildSvgPath show points width height padding) = Some b
    /\ ((forall lat lng, In (lat, lng) points -> isNaN lat = false /\ isNaN lng = false) ->
        forall lat lng, In (lat, lng) points ->
          ((bminX b <=? lng) = true /\ (lng <=? bmaxX b) = true)
          /\ ((bminY b <=? lat) = true /\ (lat <=? bmaxY b) = true))
    /\ In (bminX b) (List.map snd points) /\ In (bmaxX b) (List.map snd points)
    /\ In (bminY b) (List.map fst points) /\ In (bmaxY b) (List.map fst points).
Proof.
  intros Hlen. unfold buildSvgPath.
  replace (List.length points <? 2)%nat with false
    by (symmetry; apply Nat.ltb_ge, Hlen).
  eexists. split; [reflexivity |]. cbn [bminX bmaxX bminY bmaxY].
  pose proof (long_nonempty points Hlen) as Hne.
  split; [intros Hnum lat lng Hin; apply point_in_bbox; assumption |].
  repeat split.
  - apply MathMin_In, xs_nonempty, Hne.
  - apply MathMax_In, xs_nonempty, Hne.
  - apply MathMin_In, ys_nonempty, Hne.
  - apply MathMax_In, ys_nonempty, Hne.
Qed.

Lemma bbox_is_tight_witness :
  exists b,
    bbox (buildSvgPath printSafeInteger sampleRoute 640 360 20) = Some b
    /\ ((forall lat lng, In (lat, lng) sampleRoute -> isNaN lat = false /\ isNaN lng = false) ->
        forall lat lng, In (lat, lng) sampleRoute ->
          ((bminX b <=? lng) = true /\ (lng <=? bmaxX b) = true)
          /\ ((bminY b <=? lat) = true /\ (lat <=? bmaxY b) = true))
    /\ In (bminX b) (List.map snd sampleRoute) /\ In (bmaxX b) (List.map snd sampleRoute)
    /\ In (bminY b) (List.map fst sampleRoute) /\ In (bmaxY b) (List.map fst sampleRoute).
Proof.
  apply (bbox_is_tight printSafeInteger sampleRoute 640 360 20). simpl. lia.
Defined.

(** ** The path string *)

Local Open Scope string_scope.

Section PathText.

Variable show : float -> string.

(** The command of a point that is not the first. *)
Definition lineTo (p : float * float) : string :=
  "L " ++ toFixed2 show (fst p) ++ " " ++ toFixed2 show (snd p).

(** The command of the first point. *)
Definition moveTo (p : float * float) : string :=
  "M " ++ toFixed2 show (fst p) ++ " " ++ toFixed2 show (snd p).

Lemma commands_after_first (i : nat) (l : list (float * float)) :
  commands show (S i) l = List.map lineTo l.
Proof.
  revert i. induction l as [| [x y] l IH]; intros i; simpl; [reflexivity |].
  rewrite IH. reflexivity.
Qed.

Lemma commands_shape (p : float * float) (l : list (float * float)) :
  commands show 0 (p :: l) = moveTo p :: List.map lineTo l.
Proof.
  destruct p as [x y]. simpl. rewrite commands_after_first. reflexivity.
Qed.

End PathText.

(** X24: the path text is empty exactly when there are fewer than two
    points (the page shows "No polyline available" on an empty text); with
    two points or more there is one projected point per input point, and
    the text is a single move [M x y] to the first projected point followed
    by a line [L x y] to each of the others, joined by single spaces. *)
Theorem path_is_one_move_then_lines
    (show : float -> string) (points : list (float * float))
    (width height padding : float) :
  (d (buildSvgPath show points width height padding) = ""
   <-> (List.length points < 2)%nat)
  /\ ((2 <= List.length points)%nat ->
      exists first rest,
        projected points width height padding = first :: rest
        /\ List.length (first :: rest) = List.length points
        /\ d (buildSvgPath show points width height padding)
           = String.concat " " (moveTo show first :: List.map (lineTo show) rest)).
Proof.
  assert (Hshape : (2 <= List.length points)%nat ->
            exists first second rest,
              mapped points width height padding = first :: second :: rest
              /\ List.length (first :: second :: rest) = List.length points).
  { intros Hlen. unfold mapped.
    destruct points as [| p [| q r]]; simpl in Hlen; try lia.
    cbn [List.map].
    eexists; eexists; eexists. split; [reflexivity |].
    cbn [List.length]. rewrite length_map. reflexivity. }
  split.
  - unfold buildSvgPath.
    destruct (List.length points <? 2)%nat eqn:Hlt.
    + apply Nat.ltb_lt in Hlt. split; [intros _; exact Hlt | reflexivity].
    + apply Nat.ltb_ge in Hlt.
      destruct (Hshape Hlt) as [first [second [rest [E _]]]].
      split; [| lia].
      cbn [d]. rewrite E, commands_shape. destruct first as [x y].
      simpl. discriminate.
  - intros Hlen.
    destruct (Hshape Hlen) as [first [second [rest [E L]]]].
    exists first, (second :: rest).
    rewrite projected_long by exact Hlen.
    split; [exact E |]. split; [exact L |].
    unfold buildSvgPath.
    replace (List.length points <? 2)%nat with false
      by (symmetry; apply Nat.ltb_ge, Hlen).
    cbn [d]. rewrite E, commands_shape. reflexivity.
Qed.

Lemma path_is_one_move_then_lines_witness :
  exists first rest,
    projected sampleRoute 640 360 20 = first :: rest
    /\ List.length (first :: rest) = List.length sampleRoute
    /\ d (buildSvgPath printSafeInteger sampleRoute 640 360 20)
       = String.concat " " (moveTo printSafeInteger first
                              :: List.map (lineTo printSafeInteger) rest).
Proof.
  apply (proj2 (path_is_one_move_then_lines printSafeInteger sampleRoute 640 360 20)).
  simpl. lia.
Defined.

End ProjectionMore.
